(** * Verification of the dimensional-analysis library and the plugin loader

    Two translation units are embedded here:

    - [cpp_guide_ff8075.cpp]: the compile-time unit system ([Unit],
      [Quantity] and its four binary operators), built on [std::ratio];
    - [cpp_guide_a9aafb.cpp]: the dynamic plugin loader ([main]).

    Template instantiation is made explicit: an operator applied to operands
    whose types the compiler would reject returns [None]; otherwise it
    returns the quantity the C++ expression evaluates to. *)

From Stdlib Require Import ZArith QArith Lia List String.
Import ListNotations.
From Stdlib Require Import Floats.PrimFloat Floats.SpecFloat.
From stdpp Require Import base decidable option numbers.

Open Scope Z_scope.

(* ===================================================================== *)
(** ** [std::ratio] ([<ratio>]) *)
(* ===================================================================== *)

(** The source computes every result dimension with [std::ratio_add] and
    [std::ratio_subtract].  They are part of the C++ standard library, not of
    the repository; the definitions below follow the wording of the standard
    ([ratio.ratio], [ratio.arithmetic]): template arguments are [intmax_t],
    the static members [num] and [den] hold the reduced fraction, and an
    instantiation whose values cannot be represented is ill-formed. *)
Module StdRatio.

Definition INTMAX_MAX : Z := 9223372036854775807.

(** The template-id [std::ratio<Num, Den>].  Two template-ids denote the
    same type iff their arguments are equal, which is Leibniz equality of
    this record. *)
Record ratio : Type := Ratio { Num : Z; Den : Z }.

#[global] Instance ratio_eq_dec : EqDecision ratio.
Proof. solve_decision. Defined.

(** [|z|] is representable by [intmax_t]. *)
Definition representable (z : Z) : bool :=
  (- INTMAX_MAX <=? z) && (z <=? INTMAX_MAX).

(** [std::ratio<Num, Den>] can be instantiated: [Den] is not zero and the
    absolute values of both arguments are representable. *)
Definition instantiable (r : ratio) : bool :=
  negb (Den r =? 0) && representable (Num r) && representable (Den r).

(** [ratio<N, D>::num = sign(N) * sign(D) * abs(N) / gcd(N, D)] *)
Definition num (r : ratio) : Z :=
  (Z.sgn (Num r) * Z.sgn (Den r) * Z.abs (Num r)) ÷ Z.gcd (Num r) (Den r).

(** [ratio<N, D>::den = abs(D) / gcd(N, D)] *)
Definition den (r : ratio) : Z :=
  Z.abs (Den r) ÷ Z.gcd (Num r) (Den r).

(** [ratio<N, D>::type = ratio<num, den>] *)
Definition type (r : ratio) : ratio := Ratio (num r) (den r).

(** The result of a ratio arithmetic alias: [ratio<U, V>] with
    [U = ratio<N, D>::num] and [V = ratio<N, D>::den], where [N] and [D] are
    computed without overflow; ill-formed when [U] or [V] is not
    representable. *)
Definition ratio_of (N D : Z) : option ratio :=
  let r := Ratio N D in
  if representable (num r) && representable (den r)
  then Some (type r) else None.

(** [std::ratio_add<R1, R2>] *)
Definition ratio_add (R1 R2 : ratio) : option ratio :=
  if instantiable R1 && instantiable R2
  then ratio_of (num R1 * den R2 + num R2 * den R1) (den R1 * den R2)
  else None.

(** [std::ratio_subtract<R1, R2>] *)
Definition ratio_subtract (R1 R2 : ratio) : option ratio :=
  if instantiable R1 && instantiable R2
  then ratio_of (num R1 * den R2 - num R2 * den R1) (den R1 * den R2)
  else None.

(** Lowest terms with positive denominator. *)
Definition canonical (r : ratio) : Prop :=
  0 < Den r /\ Z.gcd (Num r) (Den r) = 1.

Definition canonicalb (r : ratio) : bool :=
  (0 <? Den r) && (Z.gcd (Num r) (Den r) =? 1).

(** The rational number a template-id stands for. *)
Definition to_Q (r : ratio) : Q :=
  Qmake (Z.sgn (Den r) * Num r) (Z.to_pos (Z.abs (Den r))).

End StdRatio.

Import StdRatio.


(* ===================================================================== *)
(** ** The unit system ([cpp_guide_ff8075.cpp]) *)
(* ===================================================================== *)

(** [template <int N> using Exponent = std::ratio<N, 1>;] *)
Definition Exponent (N : Z) : ratio := Ratio N 1.

(** [struct Unit<LengthExp, MassExp, TimeExp, CurrentExp>]: a type tag with
    four member aliases and no data.  A [Unit] type is identified by its
    four template arguments. *)
Record Unit : Type := mkUnit {
  LengthRatio : ratio;
  MassRatio : ratio;
  TimeRatio : ratio;
  CurrentRatio : ratio
}.

#[global] Instance Unit_eq_dec : EqDecision Unit.
Proof. solve_decision. Defined.

(** Named units; omitted template arguments default to [Exponent<0>]. *)
Definition Meter : Unit :=
  mkUnit (Exponent 1) (Exponent 0) (Exponent 0) (Exponent 0).
Definition Kilogram : Unit :=
  mkUnit (Exponent 0) (Exponent 1) (Exponent 0) (Exponent 0).
Definition Second : Unit :=
  mkUnit (Exponent 0) (Exponent 0) (Exponent 1) (Exponent 0).
Definition Ampere : Unit :=
  mkUnit (Exponent 0) (Exponent 0) (Exponent 0) (Exponent 1).
Definition Velocity : Unit :=
  mkUnit (Exponent 1) (Exponent 0) (Exponent (-1)) (Exponent 0).
Definition Acceleration : Unit :=
  mkUnit (Exponent 1) (Exponent 0) (Exponent (-2)) (Exponent 0).
Definition Area : Unit :=
  mkUnit (Exponent 2) (Exponent 0) (Exponent 0) (Exponent 0).
Definition Force : Unit :=
  mkUnit (Exponent 1) (Exponent 1) (Exponent (-2)) (Exponent 0).
Definition Dimensionless : Unit :=
  mkUnit (Exponent 0) (Exponent 0) (Exponent 0) (Exponent 0).

(** Units all of whose exponents are written with the alias [Exponent<N>];
    [N] is then an [int]. *)
Definition IntegerUnit (l m t c : Z) : Unit :=
  mkUnit (Exponent l) (Exponent m) (Exponent t) (Exponent c).

Definition INT_MAX : Z := 2147483647.
Definition INT_MIN : Z := -2147483648.

Definition is_int (N : Z) : Prop := INT_MIN <= N <= INT_MAX.

(** The [ResultUnit] alias of [operator*]: each argument is
    [typename std::ratio_add<..., ...>::type]. *)
Definition ResultUnit_mul (UnitType OtherUnitType : Unit) : option Unit :=
  l ← ratio_add (LengthRatio UnitType) (LengthRatio OtherUnitType);
  m ← ratio_add (MassRatio UnitType) (MassRatio OtherUnitType);
  t ← ratio_add (TimeRatio UnitType) (TimeRatio OtherUnitType);
  c ← ratio_add (CurrentRatio UnitType) (CurrentRatio OtherUnitType);
  Some (mkUnit (type l) (type m) (type t) (type c)).

(** The [ResultUnit] alias of [operator/], with [std::ratio_subtract]. *)
Definition ResultUnit_div (UnitType OtherUnitType : Unit) : option Unit :=
  l ← ratio_subtract (LengthRatio UnitType) (LengthRatio OtherUnitType);
  m ← ratio_subtract (MassRatio UnitType) (MassRatio OtherUnitType);
  t ← ratio_subtract (TimeRatio UnitType) (TimeRatio OtherUnitType);
  c ← ratio_subtract (CurrentRatio UnitType) (CurrentRatio OtherUnitType);
  Some (mkUnit (type l) (type m) (type t) (type c)).

(** What the operator bodies ask of the template parameter [ValueType]. *)
Class Arithmetic (V : Type) : Type := {
  value_add : V -> V -> V;
  value_sub : V -> V -> V;
  value_mul : V -> V -> V;
  value_div : V -> V -> V
}.

(** A property of all four exponents of a unit, or relating the exponents of
    several units axis by axis. *)
Definition each_axis (P : (Unit -> ratio) -> Prop) : Prop :=
  P LengthRatio /\ P MassRatio /\ P TimeRatio /\ P CurrentRatio.

(** [r] is the exponent [R1 ⊕ R2] as a [std::ratio]: both operands can be
    instantiated, and [r] is the reduced, representable template-id whose
    value is [qop] of the operands' values. *)
Definition exponent_result (qop : Q -> Q -> Q) (R1 R2 r : ratio) : Prop :=
  instantiable R1 = true /\ instantiable R2 = true /\
  canonical r /\ representable (Num r) = true /\ representable (Den r) = true /\
  (to_Q r == qop (to_Q R1) (to_Q R2))%Q.

(** [mul(A, B)] and [div(A, B)] of the dimension algebra: per-axis sum and
    per-axis difference of the exponents. *)
Definition dimension_mul (A B U : Unit) : Prop :=
  each_axis (fun axis => exponent_result Qplus (axis A) (axis B) (axis U)).

Definition dimension_div (A B U : Unit) : Prop :=
  each_axis (fun axis => exponent_result Qminus (axis A) (axis B) (axis U)).

(** Every exponent is in lowest terms with positive denominator. *)
Definition canonical_unit (U : Unit) : Prop :=
  each_axis (fun axis => canonical (axis U)).

(** Mathematical equality of two dimension vectors. *)
Definition same_exponents (U V : Unit) : Prop :=
  each_axis (fun axis => (to_Q (axis U) == to_Q (axis V))%Q).

(** Dimension vectors the algebra produces: the [ResultUnit] of a product or
    of a quotient. *)
Inductive producible : Unit -> Prop :=
| producible_mul A B U : ResultUnit_mul A B = Some U -> producible U
| producible_div A B U : ResultUnit_div A B = Some U -> producible U.

(** All four exponents are valid [std::ratio] instantiations. *)
Definition instantiable_unit (U : Unit) : Prop :=
  each_axis (fun axis => instantiable (axis U) = true).

(** The same, as a test.  An operator expression on quantities makes the
    compiler complete the classes associated with the operand types, which
    include the [std::ratio] template arguments of their [Unit]s
    (argument-dependent lookup); a [std::ratio] that cannot be instantiated
    makes the expression ill-formed, whichever operator is named. *)
Definition valid_exponents (U : Unit) : bool :=
  instantiable (LengthRatio U) && instantiable (MassRatio U) &&
  instantiable (TimeRatio U) && instantiable (CurrentRatio U).

(** The unit whose exponents are the [::type] of the exponents of [U]. *)
Definition reduce_unit (U : Unit) : Unit :=
  mkUnit (type (LengthRatio U)) (type (MassRatio U))
         (type (TimeRatio U)) (type (CurrentRatio U)).

(** The opposite exponent, and the unit with all exponents opposite. *)
Definition negate (r : ratio) : ratio := Ratio (- Num r) (Den r).

Definition negate_unit (U : Unit) : Unit :=
  mkUnit (negate (LengthRatio U)) (negate (MassRatio U))
         (negate (TimeRatio U)) (negate (CurrentRatio U)).

(** Operator tokens that the arithmetic surface of a quantity library may
    overload. *)
Inductive binary_token : Type :=
| tok_plus | tok_minus | tok_star | tok_slash
| tok_eq | tok_ne | tok_lt | tok_gt | tok_le | tok_ge.

Inductive unary_token : Type := tok_negate | tok_unary_plus.

#[global] Instance binary_token_eq_dec : EqDecision binary_token.
Proof. solve_decision. Defined.

#[global] Instance unary_token_eq_dec : EqDecision unary_token.
Proof. solve_decision. Defined.

Definition is_comparison (op : binary_token) : bool :=
  match op with
  | tok_eq | tok_ne | tok_lt | tok_gt | tok_le | tok_ge => true
  | _ => false
  end.

(** Name lookup of [operator@] among declared functions. *)
Definition declared {T F : Type} `{EqDecision T}
    (op : T) (table : list (T * F)) : option F :=
  snd <$> List.find (fun d => bool_decide (fst d = op)) table.

Section Quantity.

(** The scalar types of a program: [scalar] names them (type identity is
    decidable), [carrier] gives the values of each. *)
Context {scalar : Type} `{EqDecision scalar}.
Context (carrier : scalar -> Type) `{!forall S, Arithmetic (carrier S)}.

(** [template <typename UnitType, typename ValueType = double>
     struct Quantity { ValueType value; ... }].  [UnitType] is carried
    along with the value so that ill-typed operands can be told apart. *)
Record Quantity (ValueType : scalar) : Type := mkQuantity {
  UnitType : Unit;
  value : carrier ValueType
}.
Arguments mkQuantity {ValueType}.
Arguments UnitType {ValueType}.
Arguments value {ValueType}.

(** [explicit Quantity(ValueType val) : value(val) {}] *)
Definition construct (U : Unit) {ValueType : scalar}
    (val : carrier ValueType) : Quantity ValueType :=
  {| UnitType := U; value := val |}.

(** The [ValueType] template argument of the type of [q]. *)
Definition scalar_type {ValueType : scalar} (q : Quantity ValueType) : scalar :=
  ValueType.

(** Binding an argument of type [Quantity<U, S>] to a parameter
    [const Quantity<_, ValueType>&].  [Quantity] has no converting
    constructor and no conversion function, so [S] must be [ValueType]
    itself; the bound object's [value] is then a [ValueType]. *)
Definition bind_value (ValueType : scalar) {S : scalar}
    (other : Quantity S) : option (carrier ValueType) :=
  match decide (S = ValueType) with
  | left e => Some (eq_rect S carrier (value other) ValueType e)
  | right _ => None
  end.

(** [Quantity<UnitType, ValueType>
     operator+(const Quantity<UnitType, ValueType>& other) const].
    The body does not look at the exponents, but [self + other] is an
    operator expression: the exponents of both operand types must be valid
    for it to be well-formed (see [valid_exponents]). *)
Definition operator_plus {ValueType S : scalar}
    (self : Quantity ValueType) (other : Quantity S)
    : option (Quantity ValueType) :=
  if valid_exponents (UnitType self) && valid_exponents (UnitType other) then
    if decide (UnitType other = UnitType self) then
      v ← bind_value ValueType other;
      Some (construct (UnitType self) (value_add (value self) v))
    else None
  else None.

(** [Quantity<UnitType, ValueType>
     operator-(const Quantity<UnitType, ValueType>& other) const], with the
    same requirement on the exponents as [operator+]. *)
Definition operator_minus {ValueType S : scalar}
    (self : Quantity ValueType) (other : Quantity S)
    : option (Quantity ValueType) :=
  if valid_exponents (UnitType self) && valid_exponents (UnitType other) then
    if decide (UnitType other = UnitType self) then
      v ← bind_value ValueType other;
      Some (construct (UnitType self) (value_sub (value self) v))
    else None
  else None.

(** [template <typename OtherUnitType>
     auto operator*(const Quantity<OtherUnitType, ValueType>& other) const] *)
Definition operator_mul {ValueType S : scalar}
    (self : Quantity ValueType) (other : Quantity S)
    : option (Quantity ValueType) :=
  v ← bind_value ValueType other;
  ResultUnit ← ResultUnit_mul (UnitType self) (UnitType other);
  Some (construct ResultUnit (value_mul (value self) v)).

(** [template <typename OtherUnitType>
     auto operator/(const Quantity<OtherUnitType, ValueType>& other) const] *)
Definition operator_div {ValueType S : scalar}
    (self : Quantity ValueType) (other : Quantity S)
    : option (Quantity ValueType) :=
  v ← bind_value ValueType other;
  ResultUnit ← ResultUnit_div (UnitType self) (UnitType other);
  Some (construct ResultUnit (value_div (value self) v)).

(** *** Operator expressions

    Overload resolution for an operator expression with an operand of type
    [Quantity]: the candidates are the member operator functions of the
    left operand's class and the non-member operator functions in scope.
    [struct Quantity] declares the four binary members above and nothing
    else; the file declares no non-member operator function; [Quantity]
    has no conversion function, so no built-in operator is viable. *)

(** The other operand of a binary expression: a quantity or a raw scalar. *)
Inductive operand : Type :=
| arg_quantity {S : scalar} (q : Quantity S)
| arg_scalar {S : scalar} (v : carrier S).

(** Expressions with at least one operand of type [Quantity]:
    [@a], [a @ b] and [s @ b] for a scalar [s]. *)
Inductive expression : Type :=
| unary (op : unary_token) {S : scalar} (a : Quantity S)
| binary (op : binary_token) {S : scalar} (a : Quantity S) (b : operand)
| scalar_binary (op : binary_token) {S : scalar} (s : carrier S)
    {S' : scalar} (b : Quantity S').

(** What an accepted expression evaluates to. *)
Inductive result : Type :=
| res_quantity {S : scalar} (q : Quantity S)
| res_bool (b : bool).

(** The shapes an operator function on quantities can have: a member with
    one parameter [const Quantity<_, ValueType>&], a member without
    parameter, and a non-member with two parameters. *)
Definition binary_member : Type :=
  forall ValueType S : scalar,
    Quantity ValueType -> Quantity S -> option (Quantity ValueType).
Definition unary_member : Type :=
  forall ValueType : scalar, Quantity ValueType -> option result.
Definition non_member : Type := operand -> operand -> option result.

(** The operator functions the file declares, by token. *)
Definition binary_members : list (binary_token * binary_member) :=
  [ (tok_plus, @operator_plus);
    (tok_minus, @operator_minus);
    (tok_star, @operator_mul);
    (tok_slash, @operator_div) ].
Definition unary_members : list (unary_token * unary_member) := [].
Definition non_members : list (binary_token * non_member) := [].

Definition member_operator (op : binary_token) : option binary_member :=
  declared op binary_members.

(** Initialising the parameter [const Quantity<_, ValueType>&] from an
    operand.  The only constructor taking a scalar is [explicit], so it is
    not used for this copy-initialisation, and [OtherUnitType] cannot be
    deduced from a scalar: only a quantity binds. *)
Definition as_quantity (b : operand) : option {S : scalar & Quantity S} :=
  match b with
  | arg_quantity q => Some (existT _ q)
  | arg_scalar _ => None
  end.

Definition resolve (e : expression) : option result :=
  match e with
  | @unary op V a =>
      f ← declared op unary_members;
      f V a
  | @binary op V a b =>
      match member_operator op, as_quantity b with
      | Some f, Some (existT V' q) =>
          r ← f V V' a q;
          Some (res_quantity r)
      | _, _ =>
          f ← declared op non_members;
          f (arg_quantity a) b
      end
  | @scalar_binary op V s V' b =>
      (* a scalar has no member functions *)
      f ← declared op non_members;
      f (arg_scalar s) (arg_quantity b)
  end.

End Quantity.

Arguments mkQuantity {scalar carrier ValueType}.
Arguments UnitType {scalar carrier ValueType}.
Arguments value {scalar carrier ValueType}.
Arguments construct {scalar carrier} U {ValueType} val.
Arguments scalar_type {scalar carrier ValueType} q.
Arguments bind_value {scalar _ carrier} ValueType {S} other.
Arguments operator_plus {scalar _ carrier _ ValueType S} self other.
Arguments operator_minus {scalar _ carrier _ ValueType S} self other.
Arguments operator_mul {scalar _ carrier _ ValueType S} self other.
Arguments operator_div {scalar _ carrier _ ValueType S} self other.
Arguments member_operator {scalar _ carrier _} op.
Arguments arg_quantity {scalar carrier S} q.
Arguments arg_scalar {scalar carrier S} v.
Arguments unary {scalar carrier} op {S} a.
Arguments binary {scalar carrier} op {S} a b.
Arguments scalar_binary {scalar carrier} op {S} s {S'} b.
Arguments res_quantity {scalar carrier S} q.
Arguments res_bool {scalar carrier} b.
Arguments resolve {scalar _ carrier _} e.

(** *** The scalar types of the demonstration program

    [double] is IEEE 754 binary64 (the kernel's primitive floats); [float] is
    binary32, computed by the reference implementation of the standard
    library. *)
Inductive cpp_scalar : Type := cpp_float | cpp_double.

#[global] Instance cpp_scalar_eq_dec : EqDecision cpp_scalar.
Proof. solve_decision. Defined.

Definition cpp_carrier (S : cpp_scalar) : Type :=
  match S with
  | cpp_float => SpecFloat.spec_float
  | cpp_double => PrimFloat.float
  end.

#[global] Instance binary32_arithmetic : Arithmetic SpecFloat.spec_float := {
  value_add := SpecFloat.SFadd 24 128;
  value_sub := SpecFloat.SFsub 24 128;
  value_mul := SpecFloat.SFmul 24 128;
  value_div := SpecFloat.SFdiv 24 128
}.

#[global] Instance binary64_arithmetic : Arithmetic PrimFloat.float := {
  value_add := PrimFloat.add;
  value_sub := PrimFloat.sub;
  value_mul := PrimFloat.mul;
  value_div := PrimFloat.div
}.

#[global] Instance cpp_arithmetic S : Arithmetic (cpp_carrier S) :=
  match S with
  | cpp_float => binary32_arithmetic
  | cpp_double => binary64_arithmetic
  end.

(** A [float] literal with an integral value. *)
Definition float_literal (z : Z) : SpecFloat.spec_float :=
  SpecFloat.binary_normalize 24 128 z 0 false.

(** [Quantity<U>] with the default [ValueType = double], and
    [Quantity<U, float>]. *)
Definition Quantity_double (U : Unit) (val : PrimFloat.float)
    : Quantity cpp_carrier cpp_double :=
  construct U (ValueType := cpp_double) val.

Definition Quantity_float (U : Unit) (val : SpecFloat.spec_float)
    : Quantity cpp_carrier cpp_float :=
  construct U (ValueType := cpp_float) val.

#[local] Set Warnings "-inexact-float".

(** The quantities [main] creates. *)
Definition length1 := Quantity_double Meter 10%float.
Definition length2 := Quantity_double Meter 5%float.
Definition time1 := Quantity_double Second 2%float.
Definition mass1 := Quantity_double Kilogram 70%float.
Definition gravity := Quantity_double Acceleration 9.81%float.
Definition ratio_half := Quantity_double Dimensionless 0.5%float.

(** Units whose length exponent is the largest, and the smallest, value a
    [std::ratio] can hold: [Unit<std::ratio<INTMAX_MAX, 1>>] and
    [Unit<std::ratio<-INTMAX_MAX, 1>>]. *)
Definition LengthMax : Unit :=
  mkUnit (Ratio INTMAX_MAX 1) (Exponent 0) (Exponent 0) (Exponent 0).
Definition LengthMin : Unit :=
  mkUnit (Ratio (- INTMAX_MAX) 1) (Exponent 0) (Exponent 0) (Exponent 0).

(** A unit a user may write whose length exponent is not a valid
    [std::ratio]: [Unit<std::ratio<1, 0>>]. *)
Definition ZeroDenominatorLength : Unit :=
  mkUnit (Ratio 1 0) (Exponent 0) (Exponent 0) (Exponent 0).

(** [Unit<std::ratio<1, 2>>], in lowest terms. *)
Definition HalfLength : Unit :=
  mkUnit (Ratio 1 2) (Exponent 0) (Exponent 0) (Exponent 0).

(** A unit a user may write with an unreduced exponent:
    [Unit<std::ratio<2, 4>>]. *)
Definition UnreducedLength : Unit :=
  mkUnit (Ratio 2 4) (Exponent 0) (Exponent 0) (Exponent 0).

(* ===================================================================== *)
(** ** The plugin loader ([cpp_guide_a9aafb.cpp]) *)
(* ===================================================================== *)

Module PluginLoader.
#[local] Open Scope string_scope.

(** The two branches of [#ifdef _WIN32]. *)
Inductive target : Type := Windows | Unix.

(** A non-null library handle ([HMODULE] or [void*]) and a non-null function
    pointer returned by symbol lookup. *)
Definition handle : Type := positive.
Definition symbol : Type := positive.

(** The platform and the plugin file, as far as [main] observes them.  A
    null result is [None].  [free_library] tells whether the call reports
    success ([FreeLibrary] returns non-zero, [dlclose] returns 0).  The two
    plugin entry points are called through the resolved pointers and are
    taken to return. *)
Record Platform : Type := {
  os : target;
  load_library : string -> option handle;
  get_symbol : handle -> string -> option symbol;
  free_library : handle -> bool;
  last_error : string;
  call_GetPluginNameFunc : symbol -> string;
  call_PerformOperationFunc : symbol -> Z -> Z -> Z
}.

(** One inserted operand of a [<<] chain. *)
Inductive item : Type := text (s : string) | int (z : Z) | endl.

(** What the program does, in order. *)
Inductive event : Type :=
| Cout (line : list item)
| Cerr (line : list item)
| Load (path : string) (result : option handle)
| GetSymbol (h : handle) (name : string)
| CallName (f : symbol)
| CallOperation (f : symbol) (a b : Z)
| Free (h : handle).

(** Programs thread the trace of events performed so far. *)
Definition Prog (A : Type) : Type := list event -> A * list event.

#[global] Instance Prog_ret : MRet Prog := fun A a t => (a, t).

#[global] Instance Prog_bind : MBind Prog :=
  fun A B k m t => let (a, t') := m t in k a t'.

Definition emit (e : event) : Prog unit := fun t => (tt, (t ++ [e])%list).

Definition run {A} (m : Prog A) : A * list event := m [].

Section Main.
Variable P : Platform.

(** [LoadLibraryA(path)] / [dlopen(path, RTLD_LAZY)] *)
Definition LoadLibrary (path : string) : Prog (option handle) :=
  let h := load_library P path in emit (Load path h) ;; mret h.

(** [GetProcAddress(h, name)] / [dlsym(h, name)] *)
Definition GetProcAddress (h : handle) (name : string) : Prog (option symbol) :=
  emit (GetSymbol h name) ;; mret (get_symbol P h name).

(** [FreeLibrary(h)] / [dlclose(h)]; the result is whether it succeeded. *)
Definition FreeLibrary (h : handle) : Prog bool :=
  emit (Free h) ;; mret (free_library P h).

Definition cout (line : list item) : Prog unit := emit (Cout line).
Definition cerr (line : list item) : Prog unit := emit (Cerr line).

Definition pluginFilename : string :=
  match os P with
  | Windows => "BasicPlugin.dll"
  | Unix => "./libBasicPlugin.so"
  end.

(** [int main()]; the result is the exit status. *)
Definition main : Prog Z :=
  cout [text "--- Dynamic Plugin Loader ---"; endl] ;;
  cout [text "Attempting to load plugin: "; text pluginFilename; endl] ;;
  pluginHandle ← LoadLibrary pluginFilename;
  match pluginHandle with
  | None =>
      cerr (match os P with
            | Windows => [text "Error: Could not load plugin library (code: ";
                          text (last_error P); text ")"; endl]
            | Unix => [text "Error: Could not load plugin library: ";
                       text (last_error P); endl]
            end) ;;
      mret 1
  | Some pluginHandle =>
      cout [text "Plugin library loaded successfully."; endl] ;;
      getPluginName ← GetProcAddress pluginHandle "GetPluginName";
      match getPluginName with
      | None =>
          cerr [text "Error: Could not find function 'GetPluginName' in plugin.";
                endl] ;;
          FreeLibrary pluginHandle ;;
          mret 1
      | Some getPluginName =>
          performAddition ← GetProcAddress pluginHandle "PerformAddition";
          match performAddition with
          | None =>
              cerr [text "Error: Could not find function 'PerformAddition' in plugin.";
                    endl] ;;
              FreeLibrary pluginHandle ;;
              mret 1
          | Some performAddition =>
              cout [text "Plugin functions found successfully."; endl] ;;
              emit (CallName getPluginName) ;;
              let pluginName := call_GetPluginNameFunc P getPluginName in
              cout [text "Plugin says: Hello from '"; text pluginName;
                    text "'!"; endl] ;;
              emit (CallOperation performAddition 10 25) ;;
              let result := call_PerformOperationFunc P performAddition 10 25 in
              cout [text "Plugin performed 10 + 25 = "; int result; endl] ;;
              freed ← FreeLibrary pluginHandle;
              (if negb freed then
                 cerr (match os P with
                       | Windows =>
                           [text "Warning: Could not free plugin library (code: ";
                            text (last_error P); text ")"; endl]
                       | Unix =>
                           [text "Warning: Could not close plugin library: ";
                            text (last_error P); endl]
                       end)
               else mret tt) ;;
              cout [text "Plugin library unloaded."; endl] ;;
              cout [text "--- End of Tutorial ---"; endl] ;;
              mret 0
          end
      end
  end.

End Main.

(** Console output, which does not touch the library. *)
Definition console (e : event) : Prop :=
  match e with Cout _ | Cerr _ => True | _ => False end.

(** [released h t]: the trace [t] ends with one release of [h] followed by
    console output only, and has no release of [h] before it. *)
Inductive released (h : handle) : list event -> Prop :=
| released_now rest : Forall console rest -> released h (Free h :: rest)
| released_later e t : e <> Free h -> released h t -> released h (e :: t).

(** A sample platform: the plugin of the source's comment block
    ([BasicPlugin.cpp]) when [complete] is set, and a library that lacks
    [PerformAddition] otherwise. *)
Definition sample (complete : bool) : Platform := {|
  os := Unix;
  load_library := fun path =>
    if String.eqb path "./libBasicPlugin.so" then Some 1%positive else None;
  get_symbol := fun _ name =>
    if String.eqb name "GetPluginName" then Some 1%positive
    else if String.eqb name "PerformAddition" && complete then Some 2%positive
    else None;
  free_library := fun _ => true;
  last_error := "";
  call_GetPluginNameFunc := fun _ => "Basic Cpp Plugin v1.0";
  call_PerformOperationFunc := fun _ a b => a + b
|}.

(** The events that act on the library, as opposed to console output. *)
Definition library_operation (e : event) : bool :=
  match e with
  | Cout _ | Cerr _ => false
  | _ => true
  end.

(** A platform with the complete plugin on which unloading fails. *)
Definition sample_unload_fails : Platform := {|
  os := os (sample true);
  load_library := load_library (sample true);
  get_symbol := get_symbol (sample true);
  free_library := fun _ => false;
  last_error := "busy";
  call_GetPluginNameFunc := call_GetPluginNameFunc (sample true);
  call_PerformOperationFunc := call_PerformOperationFunc (sample true)
|}.

(** A platform on which the plugin file cannot be loaded. *)
Definition sample_missing_file : Platform := {|
  os := Windows;
  load_library := fun _ => None;
  get_symbol := fun _ _ => None;
  free_library := fun _ => true;
  last_error := "126";
  call_GetPluginNameFunc := fun _ => "";
  call_PerformOperationFunc := fun _ _ _ => 0
|}.

End PluginLoader.


(* ===================================================================== *)
(** ** Facts about [std::ratio] *)
(* ===================================================================== *)

Module StdRatioFacts.

Lemma canonicalb_spec r : canonicalb r = true <-> canonical r.
Proof.
  unfold canonicalb, canonical.
  rewrite andb_true_iff, Z.ltb_lt, Z.eqb_eq. tauto.
Qed.

Lemma gcd_pos N D : D <> 0 -> 0 < Z.gcd N D.
Proof.
  intros HD. pose proof (Z.gcd_nonneg N D) as Hge.
  destruct (Z.eq_dec (Z.gcd N D) 0) as [E|E]; [|lia].
  apply Z.gcd_eq_0_r in E. contradiction.
Qed.

(** The two static members, characterised without division. *)
Lemma num_spec r :
  Den r <> 0 -> num r * Z.gcd (Num r) (Den r) = Z.sgn (Den r) * Num r.
Proof.
  intros HD. unfold num. destruct r as [N D]; simpl in *.
  pose proof (gcd_pos N D HD) as Hg.
  destruct (Z.gcd_divide_l N D) as [q Hq].
  set (g := Z.gcd N D) in *.
  assert (E : Z.sgn N * Z.sgn D * Z.abs N = Z.sgn D * q * g).
  { transitivity (Z.sgn D * (Z.abs N * Z.sgn N)); [ring|].
    rewrite Z.abs_sgn, Hq. ring. }
  rewrite E, Z.quot_mul by lia. rewrite Hq. ring.
Qed.

Lemma den_spec r :
  Den r <> 0 -> den r * Z.gcd (Num r) (Den r) = Z.abs (Den r).
Proof.
  intros HD. unfold den. destruct r as [N D]; simpl in *.
  pose proof (gcd_pos N D HD) as Hg.
  destruct (Z.gcd_divide_r N D) as [q Hq].
  set (g := Z.gcd N D) in *.
  assert (E : Z.abs D = Z.abs q * g).
  { rewrite Hq, Z.abs_mul, (Z.abs_eq g) by lia. reflexivity. }
  rewrite E, Z.quot_mul by lia. reflexivity.
Qed.

Lemma den_pos r : Den r <> 0 -> 0 < den r.
Proof.
  intros HD. pose proof (den_spec r HD) as H.
  pose proof (gcd_pos (Num r) (Den r) HD). nia.
Qed.

(** [ratio<N, D>::type] is in lowest terms with positive denominator. *)
Lemma type_canonical r : Den r <> 0 -> canonical (type r).
Proof.
  intros HD. split; simpl; [now apply den_pos|].
  pose proof (gcd_pos (Num r) (Den r) HD) as Hg.
  pose proof (num_spec r HD) as Hn. pose proof (den_spec r HD) as Hd.
  set (g := Z.gcd (Num r) (Den r)) in *.
  assert (E : Z.gcd (num r) (den r) * g = g).
  { rewrite <- (Z.abs_eq g) at 1 by lia.
    rewrite <- Z.gcd_mul_mono_r, Hn, Hd.
    rewrite <- (Z.sgn_abs (Den r)), (Z.mul_comm (Den r)).
    rewrite Z.gcd_mul_mono_l. fold g.
    destruct (Den r); simpl in *; lia. }
  nia.
Qed.

Lemma instantiable_den r : instantiable r = true -> Den r <> 0.
Proof.
  unfold instantiable. rewrite !andb_true_iff, negb_true_iff, Z.eqb_neq.
  tauto.
Qed.

(** On a reduced template-id, [::type] names the template-id itself. *)
Lemma type_id r : canonical r -> type r = r.
Proof.
  intros [Hpos Hg]. assert (HD : Den r <> 0) by lia.
  pose proof (num_spec r HD) as Hn. pose proof (den_spec r HD) as Hd.
  rewrite Hg, Z.mul_1_r in Hn, Hd.
  unfold type. rewrite Hn, Hd. destruct r as [N D]; simpl in *.
  rewrite Z.abs_eq, (Z.sgn_pos D) by lia. f_equal. lia.
Qed.

(** Equality of the denoted rationals, by cross multiplication. *)
Lemma to_Q_eq r1 r2 :
  Den r1 <> 0 -> Den r2 <> 0 ->
  (to_Q r1 == to_Q r2)%Q <->
  Z.sgn (Den r1) * Num r1 * Z.abs (Den r2)
  = Z.sgn (Den r2) * Num r2 * Z.abs (Den r1).
Proof.
  intros H1 H2. unfold to_Q, Qeq; simpl.
  rewrite !Z2Pos.id by lia. reflexivity.
Qed.

(** Reduction keeps the value. *)
Lemma to_Q_type r : Den r <> 0 -> (to_Q (type r) == to_Q r)%Q.
Proof.
  intros HD. pose proof (den_pos r HD) as Hp.
  apply to_Q_eq; simpl; [lia|assumption|].
  pose proof (gcd_pos (Num r) (Den r) HD) as Hg.
  pose proof (num_spec r HD) as Hn. pose proof (den_spec r HD) as Hd.
  rewrite (Z.sgn_pos (den r)), (Z.abs_eq (den r)) by lia.
  apply (Z.mul_cancel_r _ _ (Z.gcd (Num r) (Den r))); [lia|].
  rewrite <- Hd at 1. rewrite <- Hn. ring.
Qed.

(** Reduced template-ids that denote the same rational are the same type. *)
Lemma canonical_inj r1 r2 :
  canonical r1 -> canonical r2 -> (to_Q r1 == to_Q r2)%Q -> r1 = r2.
Proof.
  intros [Hp1 Hg1] [Hp2 Hg2] E.
  apply to_Q_eq in E; [|lia|lia].
  destruct r1 as [N1 D1], r2 as [N2 D2]; simpl in *.
  rewrite !Z.sgn_pos, !Z.abs_eq in E by lia.
  assert (H12 : (D1 | D2)).
  { apply Z.gauss with N1; [|now rewrite Z.gcd_comm].
    exists N2. lia. }
  assert (H21 : (D2 | D1)).
  { apply Z.gauss with N2; [|now rewrite Z.gcd_comm].
    exists N1. lia. }
  assert (D1 = D2) by (apply Z.divide_antisym_nonneg; solve [lia | assumption]).
  subst D2. f_equal. nia.
Qed.

Lemma sum_value (op : Z -> Z -> Z) (qop : Q -> Q -> Q) R1 R2 :
  (forall a b c d,
     (qop (a # b) (c # d) == op (a * Zpos d)%Z (c * Zpos b)%Z # (b * d))%Q) ->
  (forall x x' y y', (x == x')%Q -> (y == y')%Q -> (qop x y == qop x' y')%Q) ->
  Den R1 <> 0 -> Den R2 <> 0 ->
  (to_Q (Ratio (op (num R1 * den R2) (num R2 * den R1))%Z (den R1 * den R2)%Z)
   == qop (to_Q R1) (to_Q R2))%Q.
Proof.
  intros Hop Hcomp H1 H2.
  pose proof (den_pos R1 H1) as Hp1. pose proof (den_pos R2 H2) as Hp2.
  rewrite <- (Hcomp _ _ _ _ (to_Q_type R1 H1) (to_Q_type R2 H2)).
  unfold to_Q at 2 3; simpl. rewrite Hop.
  unfold to_Q, Qeq; simpl.
  rewrite !(Z.sgn_pos (den _)), !(Z.abs_eq (den _)) by lia.
  rewrite (Z.sgn_pos (_ * _)), (Z.abs_eq (_ * _)) by nia.
  rewrite Pos2Z.inj_mul, !Z2Pos.id by nia. rewrite !Z.mul_1_l. reflexivity.
Qed.

Lemma ratio_add_comm R1 R2 : ratio_add R1 R2 = ratio_add R2 R1.
Proof.
  unfold ratio_add. rewrite (andb_comm (instantiable R2)).
  rewrite (Z.add_comm (num R2 * den R1)), (Z.mul_comm (den R2)).
  reflexivity.
Qed.

End StdRatioFacts.

(* ===================================================================== *)
(** ** Facts about the dimension algebra *)
(* ===================================================================== *)

Module DimensionFacts.
Import StdRatioFacts.

Lemma representable_type N D :
  ratio_of N D = Some (type (Ratio N D)) <->
  representable (num (Ratio N D)) = true /\
  representable (den (Ratio N D)) = true.
Proof.
  unfold ratio_of. cbv zeta. rewrite <- andb_true_iff.
  destruct (representable _ && representable _); split; congruence.
Qed.

(** The arithmetic aliases compute exactly the reduced, representable
    result: stated once for [+] and [-]. *)
Lemma ratio_arith_iff (op : Z -> Z -> Z) (qop : Q -> Q -> Q) R1 R2 r :
  (forall a b c d,
     (qop (a # b) (c # d) == op (a * Zpos d)%Z (c * Zpos b)%Z # (b * d))%Q) ->
  (forall x x' y y', (x == x')%Q -> (y == y')%Q -> (qop x y == qop x' y')%Q) ->
  (if instantiable R1 && instantiable R2
   then ratio_of (op (num R1 * den R2) (num R2 * den R1)) (den R1 * den R2)
   else None) = Some r
  <-> exponent_result qop R1 R2 r.
Proof.
  intros Hop Hcomp. unfold exponent_result.
  destruct (instantiable R1) eqn:I1; [|simpl; split; [discriminate|]];
    [|intros (? & _); discriminate].
  destruct (instantiable R2) eqn:I2; [|simpl; split; [discriminate|]];
    [|intros (? & ? & _); discriminate].
  simpl.
  pose proof (instantiable_den _ I1) as H1.
  pose proof (instantiable_den _ I2) as H2.
  pose proof (den_pos R1 H1) as Hp1. pose proof (den_pos R2 H2) as Hp2.
  set (N := op (num R1 * den R2) (num R2 * den R1)).
  set (D := den R1 * den R2).
  assert (HD : D <> 0) by (unfold D; nia).
  pose proof (type_canonical (Ratio N D) HD) as Hc.
  assert (Hv : (to_Q (type (Ratio N D)) == qop (to_Q R1) (to_Q R2))%Q).
  { rewrite (to_Q_type (Ratio N D) HD).
    apply (sum_value op qop); assumption. }
  split.
  - intros H. pose proof H as H'. unfold ratio_of in H'. cbv zeta in H'.
    destruct (representable _ && representable _) eqn:Hr; [|discriminate].
    injection H' as <-. apply andb_true_iff in Hr as [Hrn Hrd].
    repeat split; try apply Hc; assumption.
  - intros (_ & _ & Hcr & Hrn & Hrd & Hvr).
    assert (E : type (Ratio N D) = r).
    { apply canonical_inj; [assumption..|]. now rewrite Hv, Hvr. }
    rewrite <- E. apply representable_type.
    rewrite <- E in Hrn, Hrd. split; assumption.
Qed.

Lemma ratio_add_iff R1 R2 r :
  ratio_add R1 R2 = Some r <-> exponent_result Qplus R1 R2 r.
Proof.
  apply (ratio_arith_iff Z.add Qplus).
  - intros. reflexivity.
  - intros ? ? ? ? -> ->. reflexivity.
Qed.

Lemma ratio_subtract_iff R1 R2 r :
  ratio_subtract R1 R2 = Some r <-> exponent_result Qminus R1 R2 r.
Proof.
  apply (ratio_arith_iff Z.sub Qminus).
  - intros. unfold Qminus, Qplus, Qopp, Qeq; simpl. ring.
  - intros ? ? ? ? -> ->. reflexivity.
Qed.

Lemma exponent_result_type qop R1 R2 r :
  exponent_result qop R1 R2 r -> type r = r.
Proof. intros (_ & _ & Hc & _). now apply type_id. Qed.

(** The [ResultUnit] of a product is the per-axis sum, and exists exactly
    when every per-axis sum does. *)
Lemma ResultUnit_mul_iff A B U :
  ResultUnit_mul A B = Some U <-> dimension_mul A B U.
Proof.
  unfold ResultUnit_mul, dimension_mul, each_axis.
  rewrite <- !ratio_add_iff. split.
  - intros H.
    repeat (apply bind_Some in H as (? & ? & H)).
    injection H as <-; simpl.
    repeat match goal with
           | E : ratio_add _ _ = Some _ |- _ =>
               rewrite (exponent_result_type _ _ _ _ (proj1 (ratio_add_iff _ _ _) E));
               revert E
           end.
    tauto.
  - destruct U as [l m t c]; simpl. intros (Hl & Hm & Ht & Hc).
    rewrite Hl, Hm, Ht, Hc; simpl.
    apply ratio_add_iff, exponent_result_type in Hl, Hm, Ht, Hc.
    now rewrite Hl, Hm, Ht, Hc.
Qed.

Lemma ResultUnit_div_iff A B U :
  ResultUnit_div A B = Some U <-> dimension_div A B U.
Proof.
  unfold ResultUnit_div, dimension_div, each_axis.
  rewrite <- !ratio_subtract_iff. split.
  - intros H.
    repeat (apply bind_Some in H as (? & ? & H)).
    injection H as <-; simpl.
    repeat match goal with
           | E : ratio_subtract _ _ = Some _ |- _ =>
               rewrite (exponent_result_type _ _ _ _
                          (proj1 (ratio_subtract_iff _ _ _) E));
               revert E
           end.
    tauto.
  - destruct U as [l m t c]; simpl. intros (Hl & Hm & Ht & Hc).
    rewrite Hl, Hm, Ht, Hc; simpl.
    apply ratio_subtract_iff, exponent_result_type in Hl, Hm, Ht, Hc.
    now rewrite Hl, Hm, Ht, Hc.
Qed.

(** On integral exponents of [int] range nothing overflows. *)
Lemma exponent_result_Exponent (op : Z -> Z -> Z) (qop : Q -> Q -> Q) N M :
  (forall a c, (qop (a # 1) (c # 1) == op a c # 1)%Q) ->
  (forall a c, is_int a -> is_int c -> - INTMAX_MAX <= op a c <= INTMAX_MAX) ->
  is_int N -> is_int M ->
  exponent_result qop (Exponent N) (Exponent M) (Exponent (op N M)).
Proof.
  intros Hop Hrange HN HM. pose proof (Hrange N M HN HM) as Hr.
  unfold is_int, INT_MIN, INT_MAX in HN, HM.
  unfold exponent_result, instantiable, representable, canonical; simpl.
  unfold INTMAX_MAX in *.
  repeat split;
    repeat (apply andb_true_iff; split);
    try apply Z.leb_le; try lia; try apply Z.gcd_1_r.
  unfold to_Q, Exponent; cbn [Den Num].
  change (Z.sgn 1) with 1. change (Z.to_pos (Z.abs 1)) with 1%positive.
  rewrite !Z.mul_1_l. symmetry. apply Hop.
Qed.

Lemma Qplus_integers a c : ((a # 1) + (c # 1) == (a + c)%Z # 1)%Q.
Proof. unfold Qplus, Qeq; simpl. lia. Qed.

Lemma Qminus_integers a c : ((a # 1) - (c # 1) == (a - c)%Z # 1)%Q.
Proof. unfold Qminus, Qplus, Qopp, Qeq; simpl. lia. Qed.

Lemma int_sum_representable a c :
  is_int a -> is_int c -> - INTMAX_MAX <= a + c <= INTMAX_MAX.
Proof. unfold is_int, INT_MIN, INT_MAX, INTMAX_MAX. lia. Qed.

Lemma int_difference_representable a c :
  is_int a -> is_int c -> - INTMAX_MAX <= a - c <= INTMAX_MAX.
Proof. unfold is_int, INT_MIN, INT_MAX, INTMAX_MAX. lia. Qed.

Lemma ResultUnit_mul_IntegerUnit l m t c l' m' t' c' :
  Forall is_int [l; m; t; c; l'; m'; t'; c'] ->
  ResultUnit_mul (IntegerUnit l m t c) (IntegerUnit l' m' t' c')
  = Some (IntegerUnit (l + l') (m + m') (t + t') (c + c')).
Proof.
  intros Hint. apply ResultUnit_mul_iff.
  repeat (apply List.Forall_cons_iff in Hint as [? Hint]).
  split; [|split; [|split]]; simpl;
    apply (exponent_result_Exponent Z.add Qplus);
    solve [assumption | apply Qplus_integers | apply int_sum_representable].
Qed.

Lemma ResultUnit_div_IntegerUnit l m t c l' m' t' c' :
  Forall is_int [l; m; t; c; l'; m'; t'; c'] ->
  ResultUnit_div (IntegerUnit l m t c) (IntegerUnit l' m' t' c')
  = Some (IntegerUnit (l - l') (m - m') (t - t') (c - c')).
Proof.
  intros Hint. apply ResultUnit_div_iff.
  repeat (apply List.Forall_cons_iff in Hint as [? Hint]).
  split; [|split; [|split]]; simpl;
    apply (exponent_result_Exponent Z.sub Qminus);
    solve [assumption | apply Qminus_integers
           | apply int_difference_representable].
Qed.

Lemma ResultUnit_mul_comm A B : ResultUnit_mul A B = ResultUnit_mul B A.
Proof.
  unfold ResultUnit_mul.
  now rewrite (ratio_add_comm (LengthRatio A)), (ratio_add_comm (MassRatio A)),
    (ratio_add_comm (TimeRatio A)), (ratio_add_comm (CurrentRatio A)).
Qed.

Lemma producible_canonical U : producible U -> canonical_unit U.
Proof.
  intros [A B U' H|A B U' H];
    [apply ResultUnit_mul_iff in H|apply ResultUnit_div_iff in H];
    destruct H as (Hl & Hm & Ht & Hc);
    repeat split; solve [apply Hl | apply Hm | apply Ht | apply Hc].
Qed.

(** On reduced dimension vectors, identity of types is equality of the
    exponents as rationals. *)
Lemma canonical_unit_eq U V :
  canonical_unit U -> canonical_unit V -> (U = V <-> same_exponents U V).
Proof.
  intros (Ul & Um & Ut & Uc) (Vl & Vm & Vt & Vc). split.
  - intros ->. repeat split; reflexivity.
  - intros (El & Em & Et & Ec). destruct U, V; simpl in *.
    f_equal; now apply canonical_inj.
Qed.

End DimensionFacts.

(* ===================================================================== *)
(** ** Facts about the operators of [Quantity] *)
(* ===================================================================== *)

Section QuantityFacts.
Import DimensionFacts.

Context {scalar : Type} `{EqDecision scalar}.
Context {carrier : scalar -> Type} `{!forall S, Arithmetic (carrier S)}.

#[local] Abbreviation Quantity := (Quantity carrier).

Lemma bind_value_same S (other : Quantity S) :
  bind_value S other = Some (value other).
Proof.
  unfold bind_value. destruct (decide (S = S)) as [e|n]; [|contradiction].
  now rewrite (proof_irrel e eq_refl).
Qed.

Lemma bind_value_Some ValueType S (other : Quantity S) v :
  bind_value ValueType other = Some v -> S = ValueType.
Proof.
  unfold bind_value. now destruct (decide (S = ValueType)).
Qed.

Lemma bind_value_mixed ValueType S (other : Quantity S) :
  S <> ValueType -> bind_value ValueType other = None.
Proof.
  intros Hne. destruct (bind_value ValueType other) eqn:E; [|reflexivity].
  now apply bind_value_Some in E.
Qed.

Lemma valid_exponents_spec U :
  valid_exponents U = true <-> instantiable_unit U.
Proof.
  unfold valid_exponents, instantiable_unit, each_axis.
  rewrite !andb_true_iff. tauto.
Qed.

Lemma operator_plus_same S (a b : Quantity S) :
  operator_plus a b =
  if valid_exponents (UnitType a) && valid_exponents (UnitType b) then
    if decide (UnitType b = UnitType a)
    then Some (construct (UnitType a) (value_add (value a) (value b)))
    else None
  else None.
Proof. unfold operator_plus. now rewrite bind_value_same. Qed.

Lemma operator_mul_same S (a b : Quantity S) :
  operator_mul a b =
  (U ← ResultUnit_mul (UnitType a) (UnitType b);
   Some (construct U (value_mul (value a) (value b)))).
Proof. unfold operator_mul. now rewrite bind_value_same. Qed.

Lemma operator_div_same S (a b : Quantity S) :
  operator_div a b =
  (U ← ResultUnit_div (UnitType a) (UnitType b);
   Some (construct U (value_div (value a) (value b)))).
Proof. unfold operator_div. now rewrite bind_value_same. Qed.

Lemma operator_mul_unit ValueType S (a : Quantity ValueType) (b : Quantity S) c :
  operator_mul a b = Some c ->
  ResultUnit_mul (UnitType a) (UnitType b) = Some (UnitType c).
Proof.
  unfold operator_mul. intros Hc.
  apply bind_Some in Hc as (v & _ & Hc).
  apply bind_Some in Hc as (U & HU & Hc).
  now injection Hc as <-.
Qed.

Lemma operator_div_unit ValueType S (a : Quantity ValueType) (b : Quantity S) c :
  operator_div a b = Some c ->
  ResultUnit_div (UnitType a) (UnitType b) = Some (UnitType c).
Proof.
  unfold operator_div. intros Hc.
  apply bind_Some in Hc as (v & _ & Hc).
  apply bind_Some in Hc as (U & HU & Hc).
  now injection Hc as <-.
Qed.

(** An accepted operator application had operands of one scalar type. *)
Lemma member_operator_scalar op f ValueType S
    (a : Quantity ValueType) (b : Quantity S) :
  member_operator op = Some f -> is_Some (f ValueType S a b) -> S = ValueType.
Proof.
  intros Hf [c Hc].
  destruct op; try discriminate; injection Hf as <-;
    unfold operator_plus, operator_minus, operator_mul, operator_div in Hc;
    try (destruct (_ && _); [|discriminate]);
    try destruct (decide _); try discriminate;
    apply bind_Some in Hc as (v & Hv & _);
    now apply bind_value_Some in Hv.
Qed.

End QuantityFacts.

(* ===================================================================== *)
(** ** The arithmetic surface *)
(* ===================================================================== *)

Section ArithmeticSurface.
Import DimensionFacts.

Context {scalar : Type} `{EqDecision scalar}.
Context {carrier : scalar -> Type} `{!forall S, Arithmetic (carrier S)}.

#[local] Abbreviation Quantity := (Quantity carrier).

(** C1, as amended.  For two quantities [a] and [b] of one scalar type,
    [a + b] is accepted exactly when their dimension vectors are the same
    [Unit] type and every exponent of it is a valid [std::ratio]; it is
    rejected whenever the [Unit] types differ.  For dimension vectors in
    lowest terms with valid exponents, being the same type is equality of
    the exponents as rational numbers.  An accepted sum has the dimension
    vector of the operands and the sum of their scalars.  In the program, the
    length 10.0 plus the length 5.0 is the length 15.0. *)
Theorem addition_same_dimension S (a b : Quantity S) :
  (is_Some (operator_plus a b) <->
   UnitType a = UnitType b /\ instantiable_unit (UnitType a)) /\
  (UnitType a <> UnitType b -> operator_plus a b = None) /\
  (canonical_unit (UnitType a) -> canonical_unit (UnitType b) ->
   instantiable_unit (UnitType a) -> instantiable_unit (UnitType b) ->
   (is_Some (operator_plus a b) <-> same_exponents (UnitType a) (UnitType b))) /\
  (forall c, operator_plus a b = Some c ->
     UnitType c = UnitType a /\ UnitType c = UnitType b /\
     value c = value_add (value a) (value b)) /\
  operator_plus length1 length2 = Some (Quantity_double Meter 15%float).
Proof.
  assert (Hiff : is_Some (operator_plus a b) <->
                 UnitType a = UnitType b /\ instantiable_unit (UnitType a)).
  { rewrite operator_plus_same, <- valid_exponents_spec. split.
    - intros [c Hc].
      destruct (valid_exponents (UnitType a)); [|discriminate].
      destruct (valid_exponents (UnitType b)); [|discriminate].
      destruct (decide _) as [E|E]; [now split|discriminate].
    - intros [E Ha]. rewrite <- E, Ha. simpl.
      rewrite decide_True by reflexivity. eauto. }
  split; [assumption|]. split; [|split; [|split; [|reflexivity]]].
  - intros Hne. apply eq_None_not_Some. rewrite Hiff. tauto.
  - intros Ha Hb Hia Hib. rewrite Hiff.
    rewrite (canonical_unit_eq _ _ Ha Hb). tauto.
  - intros c. rewrite operator_plus_same.
    destruct (_ && _); [|discriminate].
    destruct (decide _) as [E|E]; [|discriminate].
    intros Hc. injection Hc as <-. simpl. now rewrite E.
Qed.

(** C2, as amended.  For two quantities [a] and [b] of one scalar type,
    [a * b] is accepted exactly when on every axis both exponents are valid
    [std::ratio]s and their sum is representable as a [std::ratio]; no
    relation between the two dimension vectors is asked for.  The accepted
    product has the per-axis sum in lowest terms as its dimension vector and
    the product of the scalars as its scalar.  The product is always accepted
    when all exponents are written with [Exponent<N>].  In the program, the
    length 10.0 times the length 5.0 is the area 50.0. *)
Theorem multiplication_adds_exponents S (a b : Quantity S) :
  (forall c, operator_mul a b = Some c <->
     dimension_mul (UnitType a) (UnitType b) (UnitType c) /\
     value c = value_mul (value a) (value b)) /\
  (forall l m t c l' m' t' c',
     Forall is_int [l; m; t; c; l'; m'; t'; c'] ->
     UnitType a = IntegerUnit l m t c -> UnitType b = IntegerUnit l' m' t' c' ->
     operator_mul a b
     = Some (construct (IntegerUnit (l + l') (m + m') (t + t') (c + c'))
                       (value_mul (value a) (value b)))) /\
  operator_mul length1 length2 = Some (Quantity_double Area 50%float).
Proof.
  split; [|split; [|reflexivity]].
  - intros [U v]. rewrite operator_mul_same; simpl.
    rewrite <- ResultUnit_mul_iff. split.
    + intros Hc. apply bind_Some in Hc as (U' & HU & Hc).
      injection Hc as <- <-. now split.
    + intros [-> ->]. reflexivity.
  - intros l m t c l' m' t' c' Hint Ha Hb.
    now rewrite operator_mul_same, Ha, Hb, ResultUnit_mul_IntegerUnit.
Qed.

(** C3, as amended.  For two quantities [a] and [b] of one scalar type,
    [a / b] is accepted exactly when on every axis both exponents are valid
    [std::ratio]s and their difference is representable as a [std::ratio].
    The accepted quotient has the per-axis difference in lowest terms as its
    dimension vector and the quotient of the scalars as its scalar, whatever
    the divisor.  The quotient is always accepted when all exponents are
    written with [Exponent<N>].  In the program, the length 10.0 over the
    time 2.0 is the velocity 5.0, and over the time 0.0 it is the velocity
    +infinity of IEEE 754. *)
Theorem division_subtracts_exponents S (a b : Quantity S) :
  (forall c, operator_div a b = Some c <->
     dimension_div (UnitType a) (UnitType b) (UnitType c) /\
     value c = value_div (value a) (value b)) /\
  (forall l m t c l' m' t' c',
     Forall is_int [l; m; t; c; l'; m'; t'; c'] ->
     UnitType a = IntegerUnit l m t c -> UnitType b = IntegerUnit l' m' t' c' ->
     operator_div a b
     = Some (construct (IntegerUnit (l - l') (m - m') (t - t') (c - c'))
                       (value_div (value a) (value b)))) /\
  operator_div length1 time1 = Some (Quantity_double Velocity 5%float) /\
  operator_div length1 (Quantity_double Second 0%float)
  = Some (Quantity_double Velocity infinity).
Proof.
  split; [|split; [|split; reflexivity]].
  - intros [U v]. rewrite operator_div_same; simpl.
    rewrite <- ResultUnit_div_iff. split.
    + intros Hc. apply bind_Some in Hc as (U' & HU & Hc).
      injection Hc as <- <-. now split.
    + intros [-> ->]. reflexivity.
  - intros l m t c l' m' t' c' Hint Ha Hb.
    now rewrite operator_div_same, Ha, Hb, ResultUnit_div_IntegerUnit.
Qed.

(** C4.  Every dimension vector the algebra produces, in particular the
    dimension vector of every accepted product and quotient, has each
    exponent in lowest terms with positive denominator; on such vectors
    identity of the [Unit] types is equality of the exponents as rational
    numbers.  [Area] and [Velocity] are produced this way. *)
Theorem canonical_form_invariant :
  (forall S S' (a : Quantity S) (b : Quantity S') c,
     operator_mul a b = Some c \/ operator_div a b = Some c ->
     producible (UnitType c)) /\
  (forall U, producible U -> canonical_unit U) /\
  (forall U V, producible U -> producible V -> (U = V <-> same_exponents U V)) /\
  producible Area /\ producible Velocity.
Proof.
  split; [|split; [|split; [|split]]].
  - intros S S' a b c [Hc|Hc].
    + apply operator_mul_unit in Hc. eapply producible_mul, Hc.
    + apply operator_div_unit in Hc. eapply producible_div, Hc.
  - apply producible_canonical.
  - intros U V HU HV. apply canonical_unit_eq; now apply producible_canonical.
  - now apply (producible_mul Meter Meter).
  - now apply (producible_div Meter Second).
Qed.

(** C7.  For any two quantities [a] and [b], [a * b] and [b * a] are accepted
    together and then have the same dimension vector.  In the program, mass
    times acceleration and acceleration times mass are both a force. *)
Theorem product_dimension_commutes S S' (a : Quantity S) (b : Quantity S') :
  UnitType <$> operator_mul a b = UnitType <$> operator_mul b a /\
  UnitType <$> operator_mul mass1 gravity = Some Force /\
  UnitType <$> operator_mul gravity mass1 = Some Force.
Proof.
  split; [|split; reflexivity].
  destruct (decide (S = S')) as [<-|Hne].
  - rewrite !operator_mul_same, (ResultUnit_mul_comm (UnitType b)).
    now destruct (ResultUnit_mul _ _).
  - unfold operator_mul. rewrite !bind_value_mixed; [reflexivity|..]; congruence.
Qed.

(** C9.  Each of the four arithmetic operators rejects operands of different
    scalar types, and an accepted result has the scalar type of the
    operands. *)
Theorem operators_need_one_scalar_type S S' (a : Quantity S) (b : Quantity S')
    (op : binary_token) f :
  member_operator op = Some f ->
  (S' <> S -> f S S' a b = None) /\
  (forall c, f S S' a b = Some c ->
     scalar_type b = scalar_type a /\ scalar_type c = scalar_type a).
Proof.
  intros Hf. split.
  - intros Hne. destruct (f S S' a b) as [c|] eqn:E; [|reflexivity].
    destruct Hne. apply (member_operator_scalar op f S S' a b); eauto.
  - intros c Hc. split; [|reflexivity].
    apply (member_operator_scalar op f S S' a b); eauto.
Qed.

(** C10.  Constructing a quantity of dimension [U] from the scalar [v] and
    reading its scalar yields [v]; the quantity holds its dimension tag and
    that scalar and nothing else. *)
Theorem construct_value_roundtrip (U : Unit) S (v : carrier S) :
  value (construct U v) = v /\
  UnitType (construct U v) = U /\
  (forall q : Quantity S, construct (UnitType q) (value q) = q).
Proof. repeat split. now intros []. Qed.

(** C5, as amended.  [Quantity] provides no comparison operator: for every
    comparison token and every pair of quantities, with equal or unequal
    dimension vectors, the comparison is rejected at compile time. *)
Theorem comparisons_not_provided (op : binary_token) S S'
    (a : Quantity S) (b : Quantity S') :
  is_comparison op = true ->
  resolve (binary op a (arg_quantity b)) = None.
Proof. now destruct op. Qed.

(** C6, as amended.  [Quantity] provides neither unary negation nor
    operators that mix a quantity with a raw scalar: for every quantity [a]
    and scalar [s], each of [-a], [s * a], [a * s] and [a / s] is rejected
    at compile time. *)
Theorem negation_and_scalar_mixing_not_provided S S'
    (a : Quantity S) (s : carrier S') :
  resolve (unary tok_negate a) = None /\
  resolve (scalar_binary tok_star s a) = None /\
  resolve (binary tok_star a (arg_scalar s)) = None /\
  resolve (binary tok_slash a (arg_scalar s)) = None.
Proof. repeat split. Qed.

End ArithmeticSurface.

(** The mixed-precision product [Quantity<Meter, float>(10) * length2] is
    rejected. *)
Lemma operators_need_one_scalar_type_witness :
  member_operator (carrier := cpp_carrier) tok_star = Some (@operator_mul _ _ _ _) /\
  ((cpp_double <> cpp_float ->
    operator_mul (Quantity_float Meter (float_literal 10)) length2 = None) /\
   (forall c,
      operator_mul (Quantity_float Meter (float_literal 10)) length2 = Some c ->
      scalar_type length2 = cpp_float /\ scalar_type c = cpp_float)).
Proof.
  split; [reflexivity|].
  apply (operators_need_one_scalar_type cpp_float cpp_double
           (Quantity_float Meter (float_literal 10)) length2 tok_star).
  reflexivity.
Defined.

(** Two quantities of the very same type [Quantity<Unit<std::ratio<1, 0>>>]
    cannot be added, and neither can quantities of types
    [Quantity<Unit<std::ratio<2, 4>>>] and [Quantity<Unit<std::ratio<1, 2>>>],
    whose exponents are the same rational number. *)
Lemma addition_of_equal_dimensions_rejected :
  (UnitType (Quantity_double ZeroDenominatorLength 1%float)
   = UnitType (Quantity_double ZeroDenominatorLength 2%float) /\
   operator_plus (Quantity_double ZeroDenominatorLength 1%float)
                 (Quantity_double ZeroDenominatorLength 2%float) = None) /\
  (same_exponents UnreducedLength HalfLength /\
   operator_plus (Quantity_double UnreducedLength 1%float)
                 (Quantity_double HalfLength 2%float) = None).
Proof.
  split; split; try reflexivity.
  unfold same_exponents, each_axis, Qeq. simpl. repeat split.
Qed.

(** The product of two quantities of dimension [LengthMax] has no type: the
    length exponent [2 * INTMAX_MAX] is not representable. *)
Lemma multiplication_exponent_overflow :
  instantiable (LengthRatio LengthMax) = true /\
  operator_mul (Quantity_double LengthMax 1%float)
               (Quantity_double LengthMax 1%float) = None.
Proof. split; reflexivity. Qed.

(** The quotient of a quantity of dimension [LengthMax] by one of dimension
    [LengthMin] has no type, for the same reason. *)
Lemma division_exponent_overflow :
  instantiable (LengthRatio LengthMax) = true /\
  instantiable (LengthRatio LengthMin) = true /\
  operator_div (Quantity_double LengthMax 1%float)
               (Quantity_double LengthMin 1%float) = None.
Proof. repeat split; reflexivity. Qed.

(** Two lengths have equal dimension vectors, and yet [length1 < length2]
    and [length1 == length2] are rejected. *)
Lemma comparison_of_lengths_rejected :
  UnitType length1 = UnitType length2 /\
  resolve (binary tok_lt length1 (arg_quantity length2)) = None /\
  resolve (binary tok_eq length1 (arg_quantity length2)) = None.
Proof. repeat split; reflexivity. Qed.

(** Comparing a force and a mass with [<] is rejected. *)
Lemma comparisons_not_provided_witness :
  is_comparison tok_lt = true /\
  resolve (binary tok_lt (Quantity_double Force 686.7%float)
                         (arg_quantity mass1)) = None.
Proof.
  split; [reflexivity|].
  apply (comparisons_not_provided tok_lt cpp_double cpp_double). reflexivity.
Defined.

(** [-length1], [2.0 * length1], [length1 * 2.0] and [length1 / 2.0] are all
    rejected. *)
Lemma negation_and_scaling_of_length_rejected :
  resolve (unary tok_negate length1) = None /\
  resolve (scalar_binary (S := cpp_double) tok_star 2%float length1) = None /\
  resolve (binary tok_star length1 (arg_scalar (S := cpp_double) 2%float)) = None /\
  resolve (binary tok_slash length1 (arg_scalar (S := cpp_double) 2%float)) = None.
Proof. repeat split; reflexivity. Qed.

(* ===================================================================== *)
(** ** The loader releases the library *)
(* ===================================================================== *)

Module PluginLoaderFacts.
Import PluginLoader.

Lemma released_split h t :
  released h t <->
  exists before after,
    t = before ++ Free h :: after /\ ~ In (Free h) before /\ Forall console after.
Proof.
  split.
  - induction 1 as [rest Hrest|e t Hne _ (before & after & -> & Hnot & Hafter)].
    + exists [], rest. repeat split; [intros []|assumption].
    + exists (e :: before), after. repeat split; [|assumption].
      intros [->|Hin]; [now apply Hne|now apply Hnot].
  - intros (before & after & -> & Hnot & Hafter).
    induction before as [|e before IH]; simpl.
    + now constructor.
    + constructor.
      * intros ->. apply Hnot. now left.
      * apply IH. intros Hin. apply Hnot. now right.
Qed.

(** An event that is neither the release nor console output lies before the
    release. *)
Lemma before_release h e before after :
  In e (before ++ Free h :: after) -> e <> Free h -> ~ console e ->
  Forall console after -> In e before.
Proof.
  intros Hin Hne Hnc Hafter. apply in_app_or in Hin as [Hin|[Heq|Hin]].
  - assumption.
  - now destruct Hne.
  - destruct Hnc. rewrite List.Forall_forall in Hafter. now apply Hafter.
Qed.

Ltac trace_released :=
  repeat first
    [ apply released_now; repeat constructor
    | apply released_later; [discriminate|] ].

Ltac run_main :=
  unfold run, main, LoadLibrary, GetProcAddress, FreeLibrary, cout, cerr, emit,
    mbind, mret, Prog_bind, Prog_ret.

(** C8.  Whenever the library has been loaded, [main] calls the release
    function on its handle exactly once, after every other use, and only
    writes to the console between the release and its return.  This holds on
    each of the three ways out: with status 1 when [GetPluginName] is
    missing, with status 1 when [PerformAddition] is missing, and with
    status 0 when both are found. *)
Theorem main_releases_library P h :
  load_library P (pluginFilename P) = Some h ->
  fst (run (main P)) =
    match get_symbol P h "GetPluginName", get_symbol P h "PerformAddition" with
    | Some _, Some _ => 0
    | _, _ => 1
    end /\
  exists before after,
    snd (run (main P)) = before ++ Free h :: after /\
    In (Load (pluginFilename P) (Some h)) before /\
    ~ In (Free h) before /\
    Forall console after.
Proof.
  intros Hload.
  assert (Hrun :
    fst (run (main P)) =
      match get_symbol P h "GetPluginName", get_symbol P h "PerformAddition" with
      | Some _, Some _ => 0
      | _, _ => 1
      end /\
    released h (snd (run (main P))) /\
    In (Load (pluginFilename P) (Some h)) (snd (run (main P)))).
  { run_main. rewrite Hload. cbn.
    destruct (get_symbol P h "GetPluginName") as [f|]; cbn;
      [destruct (get_symbol P h "PerformAddition") as [g|]; cbn;
       [destruct (free_library P h); cbn|]|].
    all: split; [reflexivity|split; [trace_released|]].
    all: simpl; tauto. }
  destruct Hrun as (Hstatus & Hrel & Hin). split; [assumption|].
  apply released_split in Hrel as (before & after & Heq & Hnot & Hafter).
  exists before, after. repeat split; try assumption.
  rewrite Heq in Hin.
  apply (before_release h _ before after Hin); [discriminate|now simpl|assumption].
Qed.

(** A library without [PerformAddition]: loaded, then released on the error
    path. *)
Lemma main_releases_library_witness :
  load_library (sample false) (pluginFilename (sample false)) = Some 1%positive /\
  fst (run (main (sample false))) = 1 /\
  exists before after,
    snd (run (main (sample false))) = before ++ Free 1%positive :: after /\
    In (Load (pluginFilename (sample false)) (Some 1%positive)) before /\
    ~ In (Free 1%positive) before /\
    Forall console after.
Proof.
  split; [reflexivity|].
  apply (main_releases_library (sample false) 1%positive). reflexivity.
Defined.

End PluginLoaderFacts.

(* ===================================================================== *)
(** ** Laws of the dimension algebra *)
(* ===================================================================== *)

Module AlgebraLaws.
Import StdRatioFacts DimensionFacts.

Lemma representable_iff z :
  representable z = true <-> - INTMAX_MAX <= z <= INTMAX_MAX.
Proof.
  unfold representable. rewrite andb_true_iff, !Z.leb_le. reflexivity.
Qed.

Lemma instantiable_iff r :
  instantiable r = true <->
  Den r <> 0 /\ representable (Num r) = true /\ representable (Den r) = true.
Proof.
  unfold instantiable. rewrite !andb_true_iff, negb_true_iff, Z.eqb_neq.
  tauto.
Qed.

(** Reduction does not enlarge the numerator or the denominator. *)
Lemma reduced_representable r :
  instantiable r = true ->
  representable (num r) = true /\ representable (den r) = true.
Proof.
  intros Hi. apply instantiable_iff in Hi as (HD & HN & HD').
  apply representable_iff in HN, HD'. rewrite !representable_iff.
  pose proof (gcd_pos (Num r) (Den r) HD) as Hg.
  pose proof (num_spec r HD) as Hn. pose proof (den_spec r HD) as Hd.
  pose proof (den_pos r HD) as Hp.
  assert (Hs : Z.sgn (Den r) = 1 \/ Z.sgn (Den r) = -1)
    by (destruct (Den r); simpl; lia || contradiction).
  split; [destruct Hs as [Hs|Hs]; rewrite Hs in Hn|]; nia.
Qed.

Lemma canonical_instantiable r :
  canonical r -> representable (Num r) = true -> representable (Den r) = true ->
  instantiable r = true.
Proof.
  intros [Hp _] HN HD. apply instantiable_iff. repeat split; [lia|assumption..].
Qed.

Lemma exponent_result_instantiable qop R1 R2 r :
  exponent_result qop R1 R2 r -> instantiable r = true.
Proof.
  intros (_ & _ & Hc & HN & HD & _). now apply canonical_instantiable.
Qed.

(** Adding or subtracting the exponent zero reduces the exponent. *)
Lemma exponent_plus_zero R :
  instantiable R = true -> exponent_result Qplus R (Exponent 0) (type R).
Proof.
  intros Hi. pose proof (instantiable_den R Hi) as HD.
  destruct (reduced_representable R Hi) as [Hn Hd].
  repeat split; try assumption; try apply (type_canonical R HD).
  rewrite (to_Q_type R HD). change (to_Q (Exponent 0)) with 0%Q.
  now rewrite Qplus_0_r.
Qed.

Lemma exponent_minus_zero R :
  instantiable R = true -> exponent_result Qminus R (Exponent 0) (type R).
Proof.
  intros Hi. pose proof (instantiable_den R Hi) as HD.
  destruct (reduced_representable R Hi) as [Hn Hd].
  repeat split; try assumption; try apply (type_canonical R HD).
  rewrite (to_Q_type R HD). change (to_Q (Exponent 0)) with 0%Q.
  unfold Qminus. change (- 0)%Q with 0%Q. now rewrite Qplus_0_r.
Qed.

(** An exponent minus itself is the exponent zero. *)
Lemma exponent_minus_self R :
  instantiable R = true -> exponent_result Qminus R R (Exponent 0).
Proof.
  intros Hi. repeat split; try assumption; try reflexivity; try (simpl; lia).
  change (to_Q (Exponent 0)) with 0%Q. unfold Qminus.
  now rewrite Qplus_opp_r.
Qed.

(** The result of an exponent operation is determined by the values. *)
Lemma exponent_result_unique qop R1 R2 r qop' R1' R2' r' :
  exponent_result qop R1 R2 r -> exponent_result qop' R1' R2' r' ->
  (qop (to_Q R1) (to_Q R2) == qop' (to_Q R1') (to_Q R2'))%Q -> r = r'.
Proof.
  intros (_ & _ & Hc & _ & _ & Hv) (_ & _ & Hc' & _ & _ & Hv') E.
  apply canonical_inj; [assumption..|]. now rewrite Hv, Hv', E.
Qed.

Lemma exponent_result_add_assoc a b c ab abc bc abc' :
  exponent_result Qplus a b ab -> exponent_result Qplus ab c abc ->
  exponent_result Qplus b c bc -> exponent_result Qplus a bc abc' ->
  abc = abc'.
Proof.
  intros Hab Habc Hbc Habc'.
  apply (exponent_result_unique _ _ _ _ _ _ _ _ Habc Habc').
  destruct Hab as (_ & _ & _ & _ & _ & ->).
  destruct Hbc as (_ & _ & _ & _ & _ & ->).
  now rewrite Qplus_assoc.
Qed.

(** Subtracting what was added gives back the reduced exponent, and this
    difference is always representable. *)
Lemma exponent_add_then_subtract a b ab :
  exponent_result Qplus a b ab -> exponent_result Qminus ab b (type a).
Proof.
  intros Hab. pose proof (exponent_result_instantiable _ _ _ _ Hab) as Hiab.
  destruct Hab as (Ha & Hb & _ & _ & _ & Hv).
  pose proof (instantiable_den a Ha) as HD.
  destruct (reduced_representable a Ha) as [Hn Hd].
  repeat split; try assumption; try apply (type_canonical a HD).
  rewrite (to_Q_type a HD), Hv. unfold Qminus.
  now rewrite <- Qplus_assoc, Qplus_opp_r, Qplus_0_r.
Qed.

Lemma exponent_subtract_then_add a b ab :
  exponent_result Qminus a b ab -> exponent_result Qplus ab b (type a).
Proof.
  intros Hab. pose proof (exponent_result_instantiable _ _ _ _ Hab) as Hiab.
  destruct Hab as (Ha & Hb & _ & _ & _ & Hv).
  pose proof (instantiable_den a Ha) as HD.
  destruct (reduced_representable a Ha) as [Hn Hd].
  repeat split; try assumption; try apply (type_canonical a HD).
  rewrite (to_Q_type a HD), Hv. unfold Qminus.
  rewrite <- Qplus_assoc, (Qplus_comm (- to_Q b)), Qplus_opp_r.
  now rewrite Qplus_0_r.
Qed.

(** Swapping the operands of a subtraction negates the exponent. *)
Lemma exponent_minus_swap a b r :
  exponent_result Qminus a b r -> exponent_result Qminus b a (negate r).
Proof.
  intros (Ha & Hb & [Hp Hg] & HN & HD & Hv).
  apply representable_iff in HN. unfold exponent_result, canonical; simpl.
  rewrite Z.gcd_opp_l, !representable_iff.
  repeat split; try assumption; try lia; [now apply representable_iff|].
  assert (E : (to_Q (negate r) == - to_Q r)%Q).
  { unfold to_Q, negate, Qopp, Qeq; simpl. ring. }
  rewrite E, Hv. unfold Qminus.
  rewrite Qopp_plus, Qopp_involutive. apply Qplus_comm.
Qed.

(** *** The laws, axis by axis *)

Ltac axes H :=
  let Hl := fresh H "l" in let Hm := fresh H "m" in
  let Ht := fresh H "t" in let Hc := fresh H "c" in
  destruct H as (Hl & Hm & Ht & Hc).

Ltac split_axes := split; [|split; [|split]]; cbn beta.

Lemma ResultUnit_mul_instantiable A B U :
  ResultUnit_mul A B = Some U -> instantiable_unit A /\ instantiable_unit B.
Proof.
  intros HU. apply ResultUnit_mul_iff in HU. axes HU.
  split; repeat split; solve [apply HUl | apply HUm | apply HUt | apply HUc].
Qed.

Lemma ResultUnit_div_instantiable A B U :
  ResultUnit_div A B = Some U -> instantiable_unit A /\ instantiable_unit B.
Proof.
  intros HU. apply ResultUnit_div_iff in HU. axes HU.
  split; repeat split; solve [apply HUl | apply HUm | apply HUt | apply HUc].
Qed.

Lemma reduce_unit_canonical U : canonical_unit U -> reduce_unit U = U.
Proof.
  intros HU. axes HU. destruct U; unfold reduce_unit; simpl in *.
  now rewrite !type_id.
Qed.

Lemma ResultUnit_mul_Dimensionless A :
  instantiable_unit A -> ResultUnit_mul A Dimensionless = Some (reduce_unit A).
Proof.
  intros HA. axes HA. apply ResultUnit_mul_iff.
  split_axes; simpl; now apply exponent_plus_zero.
Qed.

Lemma ResultUnit_div_Dimensionless A :
  instantiable_unit A -> ResultUnit_div A Dimensionless = Some (reduce_unit A).
Proof.
  intros HA. axes HA. apply ResultUnit_div_iff.
  split_axes; simpl; now apply exponent_minus_zero.
Qed.

Lemma ResultUnit_div_self A :
  instantiable_unit A -> ResultUnit_div A A = Some Dimensionless.
Proof.
  intros HA. axes HA. apply ResultUnit_div_iff.
  split_axes; simpl; now apply exponent_minus_self.
Qed.

Lemma ResultUnit_mul_assoc A B C AB BC L R :
  ResultUnit_mul A B = Some AB -> ResultUnit_mul B C = Some BC ->
  ResultUnit_mul AB C = Some L -> ResultUnit_mul A BC = Some R ->
  L = R.
Proof.
  rewrite !ResultUnit_mul_iff. intros HAB HBC HL HR.
  axes HAB. axes HBC. axes HL. axes HR.
  destruct L, R; cbn beta in *; simpl in *.
  f_equal;
    [ apply (exponent_result_add_assoc _ _ _ _ _ _ _ HABl HLl HBCl HRl)
    | apply (exponent_result_add_assoc _ _ _ _ _ _ _ HABm HLm HBCm HRm)
    | apply (exponent_result_add_assoc _ _ _ _ _ _ _ HABt HLt HBCt HRt)
    | apply (exponent_result_add_assoc _ _ _ _ _ _ _ HABc HLc HBCc HRc) ].
Qed.

Lemma ResultUnit_mul_then_div A B AB :
  ResultUnit_mul A B = Some AB -> ResultUnit_div AB B = Some (reduce_unit A).
Proof.
  rewrite ResultUnit_mul_iff, ResultUnit_div_iff. intros HAB. axes HAB.
  split_axes; simpl; now apply exponent_add_then_subtract.
Qed.

Lemma ResultUnit_div_then_mul A B AB :
  ResultUnit_div A B = Some AB -> ResultUnit_mul AB B = Some (reduce_unit A).
Proof.
  rewrite ResultUnit_mul_iff, ResultUnit_div_iff. intros HAB. axes HAB.
  split_axes; simpl; now apply exponent_subtract_then_add.
Qed.

Lemma ResultUnit_div_swap A B U :
  ResultUnit_div A B = Some U -> ResultUnit_div B A = Some (negate_unit U).
Proof.
  rewrite !ResultUnit_div_iff. intros HU. axes HU.
  split_axes; simpl; now apply exponent_minus_swap.
Qed.

End AlgebraLaws.

(* ===================================================================== *)
(** ** Further laws of the arithmetic surface *)
(* ===================================================================== *)

Section QuantityLaws.
Import StdRatioFacts DimensionFacts AlgebraLaws.

Context {scalar : Type} `{EqDecision scalar}.
Context {carrier : scalar -> Type} `{!forall S, Arithmetic (carrier S)}.

#[local] Abbreviation Quantity := (Quantity carrier).

Lemma operator_minus_same S (a b : Quantity S) :
  operator_minus a b =
  if valid_exponents (UnitType a) && valid_exponents (UnitType b) then
    if decide (UnitType b = UnitType a)
    then Some (construct (UnitType a) (value_sub (value a) (value b)))
    else None
  else None.
Proof. unfold operator_minus. now rewrite bind_value_same. Qed.

Lemma reduce_unit_is_canonical U :
  instantiable_unit U -> canonical_unit (reduce_unit U).
Proof.
  intros HU. axes HU.
  split_axes; simpl; now apply type_canonical, instantiable_den.
Qed.

(** X1.  For two quantities of one scalar type, [a - b] is accepted exactly
    when their [UnitType]s are the same type and every exponent of it is a
    valid [std::ratio]; the difference keeps that unit and holds the
    difference of the scalars. *)
Theorem subtraction_same_dimension S (a b : Quantity S) :
  (is_Some (operator_minus a b) <->
   UnitType a = UnitType b /\ instantiable_unit (UnitType a)) /\
  (forall c, operator_minus a b = Some c ->
     UnitType c = UnitType a /\ value c = value_sub (value a) (value b)).
Proof.
  rewrite operator_minus_same, <- valid_exponents_spec. split.
  - split.
    + intros [c Hc].
      destruct (valid_exponents (UnitType a)); [|discriminate].
      destruct (valid_exponents (UnitType b)); [|discriminate].
      destruct (decide _) as [E|E]; [now split|discriminate].
    + intros [E Ha]. rewrite <- E, Ha. simpl.
      rewrite decide_True by reflexivity. eauto.
  - intros c Hc. destruct (_ && _); [|discriminate].
    destruct (decide _) as [E|E]; [|discriminate].
    now injection Hc as <-.
Qed.

(** X2.  When [(a * b) * c] and [a * (b * c)] are both accepted, they have
    the same dimension vector. *)
Theorem product_dimension_associates S (a b c ab bc l r : Quantity S) :
  operator_mul a b = Some ab -> operator_mul b c = Some bc ->
  operator_mul ab c = Some l -> operator_mul a bc = Some r ->
  UnitType l = UnitType r.
Proof.
  intros Hab Hbc Hl Hr. apply operator_mul_unit in Hab, Hbc, Hl, Hr.
  exact (ResultUnit_mul_assoc _ _ _ _ _ _ _ Hab Hbc Hl Hr).
Qed.

(** X3.  Multiplying or dividing [a] by a dimensionless quantity is accepted
    exactly when every exponent of [a] is a valid [std::ratio]; the result
    has the exponents of [a] reduced to lowest terms, so it has the type of
    [a] exactly when the unit of [a] was written in lowest terms. *)
Theorem dimensionless_factor_reduces_unit S (a u : Quantity S) :
  UnitType u = Dimensionless ->
  (is_Some (operator_mul a u) <-> instantiable_unit (UnitType a)) /\
  (is_Some (operator_div a u) <-> instantiable_unit (UnitType a)) /\
  (forall c, operator_mul a u = Some c \/ operator_div a u = Some c ->
     UnitType c = reduce_unit (UnitType a) /\
     (UnitType c = UnitType a <-> canonical_unit (UnitType a))).
Proof.
  intros Hu.
  assert (Hmul : forall c, operator_mul a u = Some c ->
            instantiable_unit (UnitType a) /\
            UnitType c = reduce_unit (UnitType a)).
  { intros c Hc. apply operator_mul_unit in Hc. rewrite Hu in Hc.
    destruct (ResultUnit_mul_instantiable _ _ _ Hc) as [Ha _].
    rewrite (ResultUnit_mul_Dimensionless _ Ha) in Hc. split; congruence. }
  assert (Hdiv : forall c, operator_div a u = Some c ->
            instantiable_unit (UnitType a) /\
            UnitType c = reduce_unit (UnitType a)).
  { intros c Hc. apply operator_div_unit in Hc. rewrite Hu in Hc.
    destruct (ResultUnit_div_instantiable _ _ _ Hc) as [Ha _].
    rewrite (ResultUnit_div_Dimensionless _ Ha) in Hc. split; congruence. }
  split; [|split].
  - split.
    + intros [c Hc]. now apply (Hmul c).
    + intros Ha. rewrite operator_mul_same, Hu.
      rewrite (ResultUnit_mul_Dimensionless _ Ha). simpl. eauto.
  - split.
    + intros [c Hc]. now apply (Hdiv c).
    + intros Ha. rewrite operator_div_same, Hu.
      rewrite (ResultUnit_div_Dimensionless _ Ha). simpl. eauto.
  - intros c Hc.
    assert (Hc' : instantiable_unit (UnitType a) /\
                  UnitType c = reduce_unit (UnitType a))
      by (destruct Hc as [Hc|Hc]; [now apply Hmul|now apply Hdiv]).
    destruct Hc' as [Ha Hc']. split; [assumption|]. rewrite Hc'. split.
    + intros <-. now apply reduce_unit_is_canonical.
    + apply reduce_unit_canonical.
Qed.

(** X4.  The quotient of two quantities of the same unit is accepted exactly
    when every exponent of that unit is a valid [std::ratio], and it is
    dimensionless. *)
Theorem equal_units_quotient_dimensionless S (a b : Quantity S) :
  UnitType a = UnitType b ->
  (is_Some (operator_div a b) <-> instantiable_unit (UnitType a)) /\
  (forall c, operator_div a b = Some c ->
     UnitType c = Dimensionless /\ value c = value_div (value a) (value b)).
Proof.
  intros Hab. rewrite operator_div_same, <- Hab. split.
  - split.
    + intros [c Hc]. apply bind_Some in Hc as (U & HU & _).
      now apply ResultUnit_div_instantiable in HU.
    + intros Ha. rewrite (ResultUnit_div_self _ Ha). simpl. eauto.
  - intros c Hc. apply bind_Some in Hc as (U & HU & Hc).
    pose proof (ResultUnit_div_instantiable _ _ _ HU) as [Ha _].
    rewrite (ResultUnit_div_self _ Ha) in HU.
    injection HU as <-. now injection Hc as <-.
Qed.

(** X5.  Whenever [a * b] is accepted, dividing the product by [b] is
    accepted too and gives the exponents of [a] in lowest terms; its scalar
    is [(a.value * b.value) / b.value]. *)
Theorem division_undoes_multiplication S (a b ab : Quantity S) :
  operator_mul a b = Some ab ->
  operator_div ab b
  = Some (construct (reduce_unit (UnitType a))
                    (value_div (value_mul (value a) (value b)) (value b))).
Proof.
  rewrite operator_mul_same, operator_div_same. intros Hab.
  apply bind_Some in Hab as (U & HU & Hab). injection Hab as <-. simpl.
  now rewrite (ResultUnit_mul_then_div _ _ _ HU).
Qed.

(** X6.  Whenever [a / b] is accepted, multiplying the quotient by [b] is
    accepted too and gives the exponents of [a] in lowest terms; its scalar
    is [(a.value / b.value) * b.value]. *)
Theorem multiplication_undoes_division S (a b q : Quantity S) :
  operator_div a b = Some q ->
  operator_mul q b
  = Some (construct (reduce_unit (UnitType a))
                    (value_mul (value_div (value a) (value b)) (value b))).
Proof.
  rewrite operator_mul_same, operator_div_same. intros Hq.
  apply bind_Some in Hq as (U & HU & Hq). injection Hq as <-. simpl.
  now rewrite (ResultUnit_div_then_mul _ _ _ HU).
Qed.

(** X7.  The derived unit aliases are the units the operators compute from
    the base units, for every scalar type and all values: length times
    length is an [Area], length over time a [Velocity], velocity over time
    an [Acceleration], and mass times acceleration a [Force]. *)
Theorem derived_units_agree S (length time mass velocity acceleration : Quantity S) :
  UnitType length = Meter -> UnitType time = Second ->
  UnitType mass = Kilogram -> UnitType velocity = Velocity ->
  UnitType acceleration = Acceleration ->
  UnitType <$> operator_mul length length = Some Area /\
  UnitType <$> operator_div length time = Some Velocity /\
  UnitType <$> operator_div velocity time = Some Acceleration /\
  UnitType <$> operator_mul mass acceleration = Some Force.
Proof.
  intros Hl Ht Hm Hv Ha.
  rewrite !operator_mul_same, !operator_div_same, Hl, Ht, Hm, Hv, Ha.
  repeat split.
Qed.

(** X8.  A product or quotient can never be added to, or subtracted from, a
    quantity whose unit is not written in lowest terms, in either order. *)
Theorem computed_unit_rejects_unreduced_operand S (a b c d : Quantity S) :
  operator_mul a b = Some c \/ operator_div a b = Some c ->
  ~ canonical_unit (UnitType d) ->
  operator_plus c d = None /\ operator_plus d c = None /\
  operator_minus c d = None /\ operator_minus d c = None.
Proof.
  intros Hc Hd.
  assert (Hcan : canonical_unit (UnitType c)).
  { apply producible_canonical. destruct Hc as [Hc|Hc].
    - apply operator_mul_unit in Hc. eapply producible_mul, Hc.
    - apply operator_div_unit in Hc. eapply producible_div, Hc. }
  assert (Hne : UnitType c <> UnitType d) by (intros E; now rewrite E in Hcan).
  rewrite !operator_plus_same, !operator_minus_same.
  rewrite !decide_False by congruence.
  repeat split; now destruct (_ && _).
Qed.

(** X9.  Whenever [a / b] is accepted, [b / a] is accepted too and has the
    opposite exponents. *)
Theorem swapped_quotient_negates_exponents S (a b q : Quantity S) :
  operator_div a b = Some q ->
  operator_div b a
  = Some (construct (negate_unit (UnitType q))
                    (value_div (value b) (value a))).
Proof.
  rewrite !operator_div_same. intros Hq.
  apply bind_Some in Hq as (U & HU & Hq). injection Hq as <-. simpl.
  now rewrite (ResultUnit_div_swap _ _ _ HU).
Qed.

End QuantityLaws.

(** [(length1 * length2) * mass1] and [length1 * (length2 * mass1)]. *)
Lemma product_dimension_associates_witness :
  operator_mul length1 length2 = Some (Quantity_double Area 50%float) /\
  operator_mul length2 mass1
  = Some (Quantity_double (IntegerUnit 1 1 0 0) 350%float) /\
  UnitType (Quantity_double (IntegerUnit 2 1 0 0) 3500%float)
  = UnitType (Quantity_double (IntegerUnit 2 1 0 0) 3500%float).
Proof.
  split; [reflexivity|]. split; [reflexivity|].
  apply (product_dimension_associates cpp_double length1 length2 mass1
           (Quantity_double Area 50%float)
           (Quantity_double (IntegerUnit 1 1 0 0) 350%float));
    reflexivity.
Defined.

(** A quantity of unit [Unit<std::ratio<2, 4>>] times the dimensionless
    [ratio_half] has unit [Unit<std::ratio<1, 2>>], another type. *)
Lemma dimensionless_factor_reduces_unit_witness :
  UnitType ratio_half = Dimensionless /\
  operator_mul (Quantity_double UnreducedLength 3%float) ratio_half
  = Some (Quantity_double
            (mkUnit (Ratio 1 2) (Exponent 0) (Exponent 0) (Exponent 0))
            1.5%float) /\
  (is_Some (operator_mul (Quantity_double UnreducedLength 3%float) ratio_half)
   <-> instantiable_unit UnreducedLength).
Proof.
  split; [reflexivity|]. split; [reflexivity|].
  apply (dimensionless_factor_reduces_unit cpp_double
           (Quantity_double UnreducedLength 3%float) ratio_half).
  reflexivity.
Defined.

(** [length1 / length2] is the dimensionless 2.0. *)
Lemma equal_units_quotient_dimensionless_witness :
  UnitType length1 = UnitType length2 /\
  (is_Some (operator_div length1 length2) <-> instantiable_unit Meter) /\
  (forall c, operator_div length1 length2 = Some c ->
     UnitType c = Dimensionless /\
     value c = value_div (value length1) (value length2)).
Proof.
  split; [reflexivity|].
  apply (equal_units_quotient_dimensionless cpp_double length1 length2).
  reflexivity.
Defined.

(** [(length1 * time1) / time1] is a length again. *)
Lemma division_undoes_multiplication_witness :
  operator_mul length1 time1
  = Some (Quantity_double (IntegerUnit 1 0 1 0) 20%float) /\
  operator_div (Quantity_double (IntegerUnit 1 0 1 0) 20%float) time1
  = Some (Quantity_double Meter 10%float).
Proof.
  split; [reflexivity|].
  exact (division_undoes_multiplication cpp_double length1 time1
           (Quantity_double (IntegerUnit 1 0 1 0) 20%float) eq_refl).
Defined.

(** [(length1 / time1) * time1] is a length again. *)
Lemma multiplication_undoes_division_witness :
  operator_div length1 time1 = Some (Quantity_double Velocity 5%float) /\
  operator_mul (Quantity_double Velocity 5%float) time1
  = Some (Quantity_double Meter 10%float).
Proof.
  split; [reflexivity|].
  exact (multiplication_undoes_division cpp_double length1 time1
           (Quantity_double Velocity 5%float) eq_refl).
Defined.

(** The quantities of the demonstration program. *)
Lemma derived_units_agree_witness :
  UnitType <$> operator_mul length1 length1 = Some Area /\
  UnitType <$> operator_div length1 time1 = Some Velocity /\
  UnitType <$> operator_div (Quantity_double Velocity 5%float) time1
  = Some Acceleration /\
  UnitType <$> operator_mul mass1 gravity = Some Force.
Proof.
  apply (derived_units_agree cpp_double length1 time1 mass1
           (Quantity_double Velocity 5%float) gravity);
    reflexivity.
Defined.

(** With [x] of unit [Unit<std::ratio<2, 4>>], [x * ratio_half + x] is
    rejected. *)
Lemma computed_unit_rejects_unreduced_operand_witness :
  operator_mul (Quantity_double UnreducedLength 3%float) ratio_half
  = Some (Quantity_double
            (mkUnit (Ratio 1 2) (Exponent 0) (Exponent 0) (Exponent 0))
            1.5%float) /\
  ~ canonical_unit UnreducedLength /\
  operator_plus
    (Quantity_double
       (mkUnit (Ratio 1 2) (Exponent 0) (Exponent 0) (Exponent 0)) 1.5%float)
    (Quantity_double UnreducedLength 3%float) = None.
Proof.
  assert (Hd : ~ canonical_unit UnreducedLength).
  { intros [[_ Hg] _]. discriminate Hg. }
  split; [reflexivity|]. split; [exact Hd|].
  apply (computed_unit_rejects_unreduced_operand cpp_double
           (Quantity_double UnreducedLength 3%float) ratio_half
           (Quantity_double
              (mkUnit (Ratio 1 2) (Exponent 0) (Exponent 0) (Exponent 0))
              1.5%float)
           (Quantity_double UnreducedLength 3%float)).
  - left. reflexivity.
  - exact Hd.
Defined.

(** [time1 / length1] has the exponents of [length1 / time1] negated. *)
Lemma swapped_quotient_negates_exponents_witness :
  operator_div length1 time1 = Some (Quantity_double Velocity 5%float) /\
  operator_div time1 length1
  = Some (Quantity_double (IntegerUnit (-1) 0 1 0) 0.2%float).
Proof.
  split; [reflexivity|].
  exact (swapped_quotient_negates_exponents cpp_double length1 time1
           (Quantity_double Velocity 5%float) eq_refl).
Defined.

(* ===================================================================== *)
(** ** How the loader uses the library *)
(* ===================================================================== *)

Module PluginLoaderProtocol.
Import PluginLoader PluginLoaderFacts.

(** The runs of [main], by what the platform answers. *)
Ltac main_cases P :=
  let h := fresh "h" in let f := fresh "f" in let g := fresh "g" in
  destruct (load_library P (pluginFilename P)) as [h|] eqn:Hload;
  [ destruct (get_symbol P h "GetPluginName") as [f|] eqn:Hname;
    [ destruct (get_symbol P h "PerformAddition") as [g|] eqn:Hadd;
      [ destruct (free_library P h) eqn:Hfree;
        run_main; rewrite Hload; cbn; rewrite Hname; cbn;
        rewrite Hadd; cbn; rewrite Hfree; cbn
      | run_main; rewrite Hload; cbn; rewrite Hname; cbn; rewrite Hadd; cbn ]
    | run_main; rewrite Hload; cbn; rewrite Hname; cbn ]
  | run_main; rewrite Hload; cbn ].

Ltac in_trace H :=
  repeat (destruct H as [H|H]; [try discriminate H|]); try contradiction.

(** X10.  When the library cannot be loaded, [main] returns 1 after
    reporting on [cerr]; it looks up no symbol, calls nothing and releases
    nothing. *)
Theorem load_failure_touches_nothing P :
  load_library P (pluginFilename P) = None ->
  fst (run (main P)) = 1 /\
  List.filter library_operation (snd (run (main P)))
  = [Load (pluginFilename P) None] /\
  exists line, last (snd (run (main P))) (Cout []) = Cerr line.
Proof.
  intros Hload. run_main. rewrite Hload. cbn.
  repeat split. destruct (os P); eauto.
Qed.

(** X11.  [main] returns 0 exactly when the library was loaded and both
    symbols were found, and 1 otherwise; whether the unload succeeds does
    not change the status. *)
Theorem exit_status P :
  (fst (run (main P)) = 0 <->
   exists h, load_library P (pluginFilename P) = Some h /\
             is_Some (get_symbol P h "GetPluginName") /\
             is_Some (get_symbol P h "PerformAddition")) /\
  (fst (run (main P)) = 0 \/ fst (run (main P)) = 1).
Proof.
  main_cases P; (split; [split|]); try discriminate; try tauto; try (now right).
  all: try (intros _; eexists; repeat split; eauto).
  all: intros (h' & Hh & [? Hn] & [? Ha]); try discriminate Hh;
    injection Hh as <-; congruence.
Qed.

(** X12.  [main] writes to [cerr] exactly when something failed: the load,
    one of the two lookups, or the unload. *)
Theorem cerr_iff_failure P :
  (exists line, In (Cerr line) (snd (run (main P)))) <->
  ~ exists h, load_library P (pluginFilename P) = Some h /\
              is_Some (get_symbol P h "GetPluginName") /\
              is_Some (get_symbol P h "PerformAddition") /\
              free_library P h = true.
Proof.
  main_cases P; split.
  - intros [line Hin]. in_trace Hin.
  - intros Hno. destruct Hno. eexists; repeat split; eauto.
  - intros _ (h' & Hh & _ & _ & Hf). injection Hh as <-. congruence.
  - intros _. eexists. do 12 right. left. reflexivity.
  - intros _ (h' & Hh & _ & [? Ha] & _). injection Hh as <-. congruence.
  - intros _. eexists. do 6 right. left. reflexivity.
  - intros _ (h' & Hh & [? Hn] & _). injection Hh as <-. congruence.
  - intros _. eexists. do 5 right. left. reflexivity.
  - intros _ (h' & Hh & _). discriminate Hh.
  - intros _. eexists. do 3 right. left. reflexivity.
Qed.

(** X13.  Every use of the library in a run of [main] goes through what the
    platform returned: symbols are looked up in, and the release is applied
    to, the handle the load returned; ["PerformAddition"] is looked up only
    after ["GetPluginName"] was found; and a plugin function is called only
    when both were found, through the pointer its lookup returned, the
    operation with the arguments 10 and 25. *)
Theorem library_used_as_resolved P e :
  In e (snd (run (main P))) ->
  match e with
  | Load path result =>
      path = pluginFilename P /\ result = load_library P path
  | GetSymbol h name =>
      load_library P (pluginFilename P) = Some h /\
      (name = "GetPluginName"%string \/
       name = "PerformAddition"%string /\ is_Some (get_symbol P h "GetPluginName"))
  | CallName f =>
      exists h, load_library P (pluginFilename P) = Some h /\
                get_symbol P h "GetPluginName" = Some f /\
                is_Some (get_symbol P h "PerformAddition")
  | CallOperation g a b =>
      exists h, load_library P (pluginFilename P) = Some h /\
                is_Some (get_symbol P h "GetPluginName") /\
                get_symbol P h "PerformAddition" = Some g /\
                a = 10 /\ b = 25
  | Free h => load_library P (pluginFilename P) = Some h
  | Cout _ | Cerr _ => True
  end.
Proof.
  main_cases P; intros Hin;
    repeat (destruct Hin as [<-|Hin]; [|]); try contradiction;
    try exact I; eauto 10.
Qed.

(** X14.  When the unload fails after a successful run of the plugin,
    [main] warns on [cerr], still prints that the library was unloaded, and
    returns 0. *)
Theorem failed_unload_is_a_warning P h :
  load_library P (pluginFilename P) = Some h ->
  is_Some (get_symbol P h "GetPluginName") ->
  is_Some (get_symbol P h "PerformAddition") ->
  free_library P h = false ->
  fst (run (main P)) = 0 /\
  exists before warning,
    snd (run (main P))
    = before ++ [Free h; Cerr warning;
                 Cout [text "Plugin library unloaded."; endl];
                 Cout [text "--- End of Tutorial ---"; endl]].
Proof.
  intros Hload [f Hname] [g Hadd] Hfree.
  run_main. rewrite Hload. cbn. rewrite Hname. cbn. rewrite Hadd. cbn.
  rewrite Hfree. cbn. split; [reflexivity|].
  eexists (_ :: _ :: _ :: _ :: _ :: _ :: _ :: _ :: _ :: _ :: _ :: []), _.
  reflexivity.
Qed.

(** The plugin file is missing. *)
Lemma load_failure_touches_nothing_witness :
  load_library sample_missing_file (pluginFilename sample_missing_file) = None /\
  fst (run (main sample_missing_file)) = 1 /\
  List.filter library_operation (snd (run (main sample_missing_file)))
  = [Load (pluginFilename sample_missing_file) None] /\
  exists line, last (snd (run (main sample_missing_file))) (Cout []) = Cerr line.
Proof.
  split; [reflexivity|].
  apply (load_failure_touches_nothing sample_missing_file). reflexivity.
Defined.

(** The call of [PerformAddition] in a run with the complete plugin. *)
Lemma library_used_as_resolved_witness :
  In (CallOperation 2%positive 10 25) (snd (run (main (sample true)))) /\
  exists h,
    load_library (sample true) (pluginFilename (sample true)) = Some h /\
    is_Some (get_symbol (sample true) h "GetPluginName") /\
    get_symbol (sample true) h "PerformAddition" = Some 2%positive /\
    10 = 10 /\ 25 = 25.
Proof.
  assert (Hin : In (CallOperation 2%positive 10 25)
                   (snd (run (main (sample true)))))
    by (vm_compute; tauto).
  split; [exact Hin|].
  exact (library_used_as_resolved (sample true) _ Hin).
Defined.

(** The complete plugin on a platform whose unload fails. *)
Lemma failed_unload_is_a_warning_witness :
  free_library sample_unload_fails 1%positive = false /\
  fst (run (main sample_unload_fails)) = 0 /\
  exists before warning,
    snd (run (main sample_unload_fails))
    = before ++ [Free 1%positive; Cerr warning;
                 Cout [text "Plugin library unloaded."; endl];
                 Cout [text "--- End of Tutorial ---"; endl]].
Proof.
  split; [reflexivity|].
  apply (failed_unload_is_a_warning sample_unload_fails 1%positive);
    solve [reflexivity | eexists; reflexivity].
Defined.

End PluginLoaderProtocol.

(* ===================================================================== *)
(** ** Lowest terms are kept by all four operators *)
(* ===================================================================== *)

Section CanonicalUnits.
Import DimensionFacts.

Context {scalar : Type} `{EqDecision scalar}.
Context {carrier : scalar -> Type} `{!forall S, Arithmetic (carrier S)}.

(** X15.  If the left operand's unit is written in lowest terms, the result
    of any accepted [+], [-], [*] or [/] has a unit in lowest terms. *)
Theorem operators_keep_lowest_terms (op : binary_token) f S S'
    (a : Quantity carrier S) (b : Quantity carrier S') c :
  member_operator op = Some f ->
  canonical_unit (UnitType a) ->
  f S S' a b = Some c ->
  canonical_unit (UnitType c).
Proof.
  intros Hf Ha Hc.
  destruct op; try discriminate; injection Hf as <-.
  - unfold operator_plus in Hc. destruct (_ && _); [|discriminate].
    destruct (decide _); [|discriminate].
    apply bind_Some in Hc as (v & _ & Hc). now injection Hc as <-.
  - unfold operator_minus in Hc. destruct (_ && _); [|discriminate].
    destruct (decide _); [|discriminate].
    apply bind_Some in Hc as (v & _ & Hc). now injection Hc as <-.
  - apply producible_canonical. apply operator_mul_unit in Hc.
    eapply producible_mul, Hc.
  - apply producible_canonical. apply operator_div_unit in Hc.
    eapply producible_div, Hc.
Qed.

End CanonicalUnits.

(** [length1 - length2] is a length in lowest terms. *)
Lemma operators_keep_lowest_terms_witness :
  member_operator (carrier := cpp_carrier) tok_minus
  = Some (@operator_minus _ _ _ _) /\
  canonical_unit (UnitType length1) /\
  operator_minus length1 length2 = Some (Quantity_double Meter 5%float) /\
  canonical_unit (UnitType (Quantity_double Meter 5%float)).
Proof.
  assert (Ha : canonical_unit (UnitType length1))
    by (repeat split; reflexivity).
  split; [reflexivity|]. split; [exact Ha|]. split; [reflexivity|].
  exact (operators_keep_lowest_terms tok_minus _ cpp_double cpp_double
           length1 length2 _ eq_refl Ha eq_refl).
Defined.
